(** * Training-loop orchestration of [dist_model_recnet.py]

    A shallow embedding of the three pieces of control logic of the
    script: [train_epoch], [only_proc] and the epoch loop of the main
    block with its checkpoint bookkeeping, followed by the properties
    that the specification states about them.

    Conventions of the embedding.
    - A tensor of shape [time, segment, channel] is the list of its time
      frames; a frame is the list of its segments' channel vectors.
    - The network, the optimiser, the loss and the clock are
      collaborators of the script.  They are the fields of the class
      [Env]: a state type with the transitions the script calls.
    - Python exceptions are values of [exn]; a computation that may raise
      lives in [result].
    - [a / b] on Python ints yields a float.  It is kept as the exact
      fraction: for sizes below 2^52 the float quotient has the same
      [math.ceil], [int] and [is_integer] as the exact one.
    - Losses are values of an abstract type with the operations the
      script applies to them; elapsed times are rationals. *)

From Stdlib Require Import ZArith QArith Qround Lqa Lia String.
From stdpp Require Import base tactics option list.

Local Open Scope Z_scope.

(** ** Exceptions and the error monad *)

Inductive exn : Type :=
  | UnboundLocalError (var : string)
  | NameError (var : string)
  | ZeroDivisionError
  | IndexError
  | ShapeError
  | FileNotFoundError (name : string).

Inductive result (A : Type) : Type :=
  | Ok (a : A)
  | Raise (e : exn).
Arguments Ok {A} a.
Arguments Raise {A} e.

#[global] Instance result_ret : MRet result := fun _ a => Ok a.
#[global] Instance result_bind : MBind result := fun _ _ f m =>
  match m with
  | Ok a => f a
  | Raise e => Raise e
  end.

(** A [for] loop over a list of values, threading the loop state. *)
Fixpoint for_each {I St : Type} (xs : list I) (body : I → St → result St)
    (s : St) : result St :=
  match xs with
  | [] => Ok s
  | x :: xs' => s' ← body x s; for_each xs' body s'
  end.

(** Reading a local variable that a loop may have left unassigned. *)
Definition read_local {A} (name : string) (v : option A) : result A :=
  match v with
  | Some a => Ok a
  | None => Raise (UnboundLocalError name)
  end.

(** ** Python integers, floats used as quotients, ranges and slices *)

(** [a / b] on ints. *)
Definition py_truediv (a b : Z) : result Q :=
  if b =? 0 then Raise ZeroDivisionError else Ok (inject_Z a / inject_Z b)%Q.

(** [math.ceil]. *)
Definition math_ceil (q : Q) : Z := Qceiling q.

(** [int(q)]: truncation towards zero. *)
Definition py_int (q : Q) : Z :=
  if Qle_bool 0 q then Qfloor q else Qceiling q.

(** [q.is_integer()]. *)
Definition is_integer (q : Q) : bool := Qeq_bool q (inject_Z (Qfloor q)).

(** [range(a, b)] and [range(n)]. *)
Definition py_range2 (a b : Z) : list Z :=
  map (fun i => a + Z.of_nat i) (seq 0 (Z.to_nat (b - a))).
Definition py_range (n : Z) : list Z := py_range2 0 n.

(** Normalisation of one slice bound against a length: a negative bound
    counts from the end, and both are clamped to [0, len]. *)
Definition norm_index (len i : Z) : Z :=
  if i <? 0 then Z.max (i + len) 0 else Z.min i len.

Definition slice_start {A} (l : list A) (a : Z) : nat :=
  Z.to_nat (norm_index (Z.of_nat (length l)) a).
Definition slice_len {A} (l : list A) (a b : Z) : nat :=
  Z.to_nat (norm_index (Z.of_nat (length l)) b
            - norm_index (Z.of_nat (length l)) a).

(** [l[a:b]] along the first axis. *)
Definition py_slice {A} (l : list A) (a b : Z) : list A :=
  take (slice_len l a b) (drop (slice_start l a) l).

(** [out[a:b] = v] on a tensor: the value must have the length of the
    slice, or length one, in which case it is broadcast along it. *)
Definition set_slice {A} (out : list A) (a b : Z) (v : list A)
    : result (list A) :=
  let lo := slice_start out a in
  let d := slice_len out a b in
  if (length v =? d)%nat then
    Ok (take lo out ++ v ++ drop (lo + d) out)
  else
    match v with
    | [x] => Ok (take lo out ++ replicate d x ++ drop (lo + d) out)
    | _ => Raise ShapeError
    end.

(** ** Command-line arguments read by the modelled code *)

Module Args.
Record t : Type := {
  epochs : Z;
  validation_f : Z;
  batch_size : Z;
  init_len : Z;
  up_fr : Z;
  val_chunk : Z;
  test_chunk : Z
}.
End Args.

(** The data set: input and target of the three subsets. *)
Record dataset_t (X Y : Type) : Type := {
  train_input : list (list X);
  train_target : list (list Y);
  val_input : list (list X);
  val_target : list (list Y);
  test_input : list (list X);
  test_target : list (list Y)
}.
Arguments train_input {X Y} d.
Arguments train_target {X Y} d.
Arguments val_input {X Y} d.
Arguments val_target {X Y} d.
Arguments test_input {X Y} d.
Arguments test_target {X Y} d.

(** ** The collaborators of the script

    What the script works with and does not define: the stateful
    sequence model with its optimiser, the loss evaluator, float
    arithmetic on losses, the parsed arguments, the data set, the clock,
    the random draws and the memory allocator. *)
Class Env : Type := {
  (** channel vectors of the input and of the output of the device, and
      one channel of the output *)
  X : Type;
  Y : Type;
  W : Type;
  (** the network together with its hidden state, its gradient buffers
      and the optimiser attached to its parameters *)
  net : Type;
  (** the loss as a node of the computation graph, and its scalar *)
  loss_t : Type;
  R : Type;
  forward : net → list (list X) → list (list Y) * net;
  zero_grad : net → net;
  detach_hidden : net → net;
  reset_hidden : net → net;
  loss_fcn : list (list Y) → list (list Y) → loss_t;
  backward : loss_t → net → net;
  optim_step : net → net;
  item : loss_t → R;
  (** float arithmetic on losses: [0], [+], division by an int, [<] *)
  rzero : R;
  radd : R → R → R;
  rdiv : R → Z → R;
  rltb : R → R → bool;
  (** [<] of a loss against the infinity that the record of a new model
      holds: false for an infinite loss and for one that is not a
      number *)
  rlt_inf : R → bool;
  (** the parsed arguments, a global of the script *)
  args : Args.t;
  dataset : dataset_t X Y;
  (** the wall clock, by the number of readings so far *)
  clock : nat → Q;
  (** the draw of [torch.randperm] in each epoch *)
  randperm : Z → nat → list nat;
  (** the memory handed out by the successive calls of
      [torch.empty_like] *)
  uninit : nat → nat → list Y;
  (** the sample rate of the test subset *)
  fs : Z;
  (** channel 0 of a channel vector *)
  chan0 : Y → W;
  (** [networks.load_model] on a stored network, and the network of a
      run without checkpoint *)
  load_model : net → net;
  new_model : net;
  (** [torch.cuda.max_memory_allocated()] *)
  max_memory_allocated : Z
}.

Section Script.

Context {env : Env}.

(** [torch.empty_like(t)]: a tensor shaped like [t] holding whatever the
    allocated memory [mem] held. *)
Definition empty_like {A B} (mem : nat → B) (t : list A) : list B :=
  map mem (seq 0 (length t)).

(** [t[:, idx, :]] for a tensor of indices [idx]. *)
Definition index_segments {A} (t : list (list A)) (idx : list nat)
    : result (list (list A)) :=
  mapM (fun frame : list A =>
          mapM (fun i => match frame !! i with
                         | Some x => Ok x
                         | None => Raise IndexError
                         end) idx) t.

(** *** [train_epoch] *)

(** State of the inner loop: network, [start_i], [batch_loss], [k]. *)
Definition inner_state : Type := net * Z * R * option Z.

Definition inner_body (input_batch : list (list X))
    (target_batch : list (list Y)) (up_fr : Z)
    (k : Z) (s : inner_state) : result inner_state :=
  let '(nnet, start_i, batch_loss, _) := s in
  let '(output, nnet) :=
    forward nnet (py_slice input_batch start_i (start_i + up_fr)) in
  let loss :=
    loss_fcn output
      (py_slice target_batch start_i (start_i + Args.up_fr args)) in
  let nnet := optim_step (backward loss nnet) in
  let nnet := zero_grad (detach_hidden nnet) in
  Ok (nnet, start_i + Args.up_fr args, radd batch_loss (item loss),
      Some k).

(** The [for k in range(...)] statement. *)
Definition inner_loop (input_batch : list (list X))
    (target_batch : list (list Y)) (init_len up_fr : Z)
    (s : inner_state) : result inner_state :=
  n ← py_truediv (Z.of_nat (length input_batch) - init_len) up_fr;
  for_each (py_range (math_ceil n))
    (inner_body input_batch target_batch up_fr) s.

(** State of the outer loop: [epoch_loss], network, [batch_i], [k]. *)
Definition outer_state : Type := R * net * option Z * option Z.

Definition outer_body (shuffle : list nat) (input_data : list (list X))
    (target_data : list (list Y)) (bs init_len up_fr : Z)
    (batch_i : Z) (s : outer_state) : result outer_state :=
  let '(epoch_loss, nnet, _, k) := s in
  let idx := py_slice shuffle (batch_i * bs) ((batch_i + 1) * bs) in
  input_batch ← index_segments input_data idx;
  target_batch ← index_segments target_data idx;
  let '(_, nnet) := forward nnet (py_slice input_batch 0 init_len) in
  let nnet := zero_grad nnet in
  let start_i := init_len in
  let batch_loss := rzero in
  '(nnet, _, batch_loss, k) ←
    inner_loop input_batch target_batch init_len up_fr
      (nnet, start_i, batch_loss, k);
  k ← read_local "k" k;
  Ok (radd epoch_loss (rdiv batch_loss (k + 1)), reset_hidden nnet,
      Some batch_i, Some k).

(** [t.shape[1]], the size of the segment axis. A tensor is the list of
    its frames, so one without frames has no segments here. *)
Definition shape1 {A} (t : list (list A)) : nat :=
  match t with
  | [] => 0%nat
  | frame :: _ => length frame
  end.

(** [randperm] is the draw that [torch.randperm] makes in this call. *)
Definition train_epoch (randperm : nat → list nat)
    (input_data : list (list X)) (target_data : list (list Y))
    (nnet : net) (bs init_len up_fr : Z) : result (R * net) :=
  let shuffle := randperm (shape1 input_data) in
  let epoch_loss := rzero in
  n ← py_truediv (Z.of_nat (length shuffle)) bs;
  '(epoch_loss, nnet, batch_i, _) ←
    for_each (py_range (math_ceil n))
      (outer_body shuffle input_data target_data bs init_len up_fr)
      (epoch_loss, nnet, None, None);
  batch_i ← read_local "batch_i" batch_i;
  Ok (rdiv epoch_loss (batch_i + 1), nnet).

(** *** [only_proc] *)

(** State of the chunk loop: [output], network, [l]. *)
Definition chunk_state : Type := list (list Y) * net * option Z.

Definition chunk_body (input_data : list (list X)) (chunk : Z)
    (l : Z) (s : chunk_state) : result chunk_state :=
  let '(output, nnet, _) := s in
  let '(y, nnet) :=
    forward nnet (py_slice input_data (l * chunk) ((l + 1) * chunk)) in
  output ← set_slice output (l * chunk) ((l + 1) * chunk) y;
  Ok (output, detach_hidden nnet, Some l).

(** The branch for a length that is no multiple of the chunk. *)
Definition remainder_branch (input_data : list (list X)) (chunk : Z)
    (s : chunk_state) : result (list (list Y) * net) :=
  let '(output, nnet, l) := s in
  l ← read_local "l" l;
  let '(y, nnet) :=
    forward nnet (py_slice input_data ((l + 1) * chunk) (-1)) in
  output ← set_slice output ((l + 1) * Args.val_chunk args) (-1) y;
  Ok (output, nnet).

(** [mem] is the content of the memory that [torch.empty_like] hands
    out. The result is the pair returned by the code, with the network
    as the call leaves it. *)
Definition only_proc (mem : nat → list Y) (input_data : list (list X))
    (target_data : list (list Y)) (nnet : net) (chunk : Z)
    : result (list (list Y) * R * net) :=
  let output := empty_like mem target_data in
  n ← py_truediv (Z.of_nat (length output)) chunk;
  s ← for_each (py_range (py_int n)) (chunk_body input_data chunk)
        (output, nnet, None);
  q ← py_truediv (Z.of_nat (length output)) chunk;
  '(output, nnet) ←
    (if negb (is_integer q) then remainder_branch input_data chunk s
     else let '(output, nnet, _) := s in Ok (output, nnet));
  let nnet := reset_hidden nnet in
  let loss := loss_fcn output target_data in
  Ok (output, item loss, nnet).

(** *** The main block *)

(** The stored best validation loss: the loss that an earlier validation
    stored, or the infinity that the record of a new model holds. *)
Inductive best_t : Type :=
  | Finite (r : R)
  | Infinity.

(** [val_loss < network.training_info['best_val_loss']] *)
Definition lt_best (val_loss : R) (best : best_t) : bool :=
  match best with
  | Finite r => rltb val_loss r
  | Infinity => rlt_inf val_loss
  end.

(** [network.training_info] *)
Record info_t : Type := {
  current_epoch : Z;
  training_losses : list R;
  validation_losses : list R;
  train_epoch_av : Q;
  val_epoch_av : Q;
  total_time : Q;
  best_val_loss : best_t
}.

Inductive file : Type :=
  | LossText (r : R)
  | MemText (z : Z)
  | Wav (rate : Z) (samples : list W)
  | Model (n : net) (info : info_t).

(** The state the main block works on. [files] is the save directory,
    most recent write first; [val_output] is the script's variable of
    that name, unassigned until the first validation. *)
Record world : Type := {
  network : net;
  training_info : info_t;
  files : list (string * file);
  scalars : list (string * R * Z);
  ticks : nat;
  allocs : nat;
  val_output : option (list (list Y))
}.

Definition with_info (w : world) (i : info_t) : world :=
  {| network := network w; training_info := i; files := files w;
     scalars := scalars w; ticks := ticks w; allocs := allocs w;
     val_output := val_output w |}.

Definition write_file (name : string) (f : file) (w : world) : world :=
  {| network := network w; training_info := training_info w;
     files := (name, f) :: files w;
     scalars := scalars w; ticks := ticks w; allocs := allocs w;
     val_output := val_output w |}.

Fixpoint read_file (name : string) (fl : list (string * file))
    : option file :=
  match fl with
  | [] => None
  | (n, f) :: fl' => if String.eqb n name then Some f else read_file name fl'
  end.

(** [writer.add_scalar(tag, value, epoch)] *)
Definition add_scalar (tag : string) (v : R) (epoch : Z) (w : world)
    : world :=
  {| network := network w; training_info := training_info w;
     files := files w; scalars := scalars w ++ [(tag, v, epoch)];
     ticks := ticks w; allocs := allocs w; val_output := val_output w |}.

(** [time.time()] *)
Definition time_time (w : world) : Q * world :=
  (clock (ticks w),
   {| network := network w; training_info := training_info w;
      files := files w; scalars := scalars w; ticks := S (ticks w);
      allocs := allocs w; val_output := val_output w |}).

(** [network.save_model(name, save_path)] *)
Definition save_model (name : string) (w : world) : world :=
  write_file name (Model (network w) (training_info w)) w.

(** [t.cpu().numpy()[:, 0, 0]] *)
Definition col00 (t : list (list Y)) : result (list W) :=
  mapM (fun frame : list Y =>
          match frame with
          | y :: _ => Ok (chan0 y)
          | [] => Raise IndexError
          end) t.

(** [l[-1]] *)
Definition last_item {A} (l : list A) : result A :=
  match last l with
  | Some a => Ok a
  | None => Raise IndexError
  end.

(** [a % b] on ints *)
Definition py_mod (a b : Z) : result Z :=
  if b =? 0 then Raise ZeroDivisionError else Ok (a mod b).

(** A call of [only_proc] from the main block; it takes the next
    block of uninitialised memory. *)
Definition call_only_proc (input_data : list (list X))
    (target_data : list (list Y)) (chunk : Z) (w : world)
    : result (list (list Y) * R * world) :=
  '(output, loss, nnet) ←
    only_proc (uninit (allocs w)) input_data target_data (network w) chunk;
  Ok (output, loss,
      {| network := nnet; training_info := training_info w;
         files := files w; scalars := scalars w; ticks := ticks w;
         allocs := S (allocs w); val_output := val_output w |}).

(** The [if val_loss < best_val_loss] statement. *)
Definition update_best (val_out : list (list Y)) (val_loss : R)
    (w : world) : result world :=
  let i := training_info w in
  if lt_best val_loss (best_val_loss i) then
    let w := with_info w
      {| current_epoch := current_epoch i;
         training_losses := training_losses i;
         validation_losses := validation_losses i;
         train_epoch_av := train_epoch_av i;
         val_epoch_av := val_epoch_av i;
         total_time := total_time i;
         best_val_loss := Finite val_loss |} in
    let w := write_file "bestvloss.txt" (LossText val_loss) w in
    let w := save_model "model_best" w in
    samples ← col00 val_out;
    Ok (write_file "best_val_out.wav" (Wav fs samples) w)
  else Ok w.

(** The body of [if epoch % args.validation_f == 0]. *)
Definition validation_block (epoch : Z) (w : world) : result world :=
  let '(val_ep_st_time, w) := time_time w in
  '(val_out, val_loss, w) ←
    call_only_proc (val_input dataset) (val_target dataset)
      (Args.val_chunk args) w;
  let w :=
    {| network := network w; training_info := training_info w;
       files := files w; scalars := scalars w; ticks := ticks w;
       allocs := allocs w; val_output := Some val_out |} in
  let i := training_info w in
  let w := with_info w
    {| current_epoch := current_epoch i;
       training_losses := training_losses i;
       validation_losses := validation_losses i ++ [val_loss];
       train_epoch_av := train_epoch_av i;
       val_epoch_av := val_epoch_av i;
       total_time := total_time i;
       best_val_loss := best_val_loss i |} in
  v ← last_item (validation_losses (training_info w));
  let w := add_scalar "Loss/val" v epoch w in
  let i := training_info w in
  let w := with_info w
    {| current_epoch := epoch;
       training_losses := training_losses i;
       validation_losses := validation_losses i;
       train_epoch_av := train_epoch_av i;
       val_epoch_av := val_epoch_av i;
       total_time := total_time i;
       best_val_loss := best_val_loss i |} in
  w ← update_best val_out val_loss w;
  let i := training_info w in
  let '(t, w) := time_time w in
  let av :=
    if negb (Qeq_bool (val_epoch_av i) 0)
    then ((val_epoch_av i + t - val_ep_st_time) / 2)%Q
    else (t - val_ep_st_time)%Q in
  Ok (with_info w
    {| current_epoch := current_epoch i;
       training_losses := training_losses i;
       validation_losses := validation_losses i;
       train_epoch_av := train_epoch_av i;
       val_epoch_av := av;
       total_time := total_time i;
       best_val_loss := best_val_loss i |}).

(** The body of the epoch loop. *)
Definition epoch_body (start_time init_time : Q) (epoch : Z) (w : world)
    : result world :=
  let '(ep_st_time, w) := time_time w in
  '(epoch_loss, nnet) ←
    train_epoch (randperm epoch) (train_input dataset)
      (train_target dataset) (network w) (Args.batch_size args)
      (Args.init_len args) (Args.up_fr args);
  let w :=
    {| network := nnet; training_info := training_info w;
       files := files w; scalars := scalars w; ticks := ticks w;
       allocs := allocs w; val_output := val_output w |} in
  let i := training_info w in
  let w := with_info w
    {| current_epoch := current_epoch i;
       training_losses := training_losses i ++ [epoch_loss];
       validation_losses := validation_losses i;
       train_epoch_av := train_epoch_av i;
       val_epoch_av := val_epoch_av i;
       total_time := total_time i;
       best_val_loss := best_val_loss i |} in
  v ← last_item (training_losses (training_info w));
  let w := add_scalar "Loss/train" v epoch w in
  let i := training_info w in
  let '(t, w) := time_time w in
  let av :=
    if negb (Qeq_bool (train_epoch_av i) 0)
    then ((train_epoch_av i + t - ep_st_time) / 2)%Q
    else (t - ep_st_time)%Q in
  let w := with_info w
    {| current_epoch := current_epoch i;
       training_losses := training_losses i;
       validation_losses := validation_losses i;
       train_epoch_av := av;
       val_epoch_av := val_epoch_av i;
       total_time := total_time i;
       best_val_loss := best_val_loss i |} in
  m ← py_mod epoch (Args.validation_f args);
  w ← (if m =? 0 then validation_block epoch w else Ok w);
  let i := training_info w in
  let '(t, w) := time_time w in
  let w := with_info w
    {| current_epoch := epoch;
       training_losses := training_losses i;
       validation_losses := validation_losses i;
       train_epoch_av := train_epoch_av i;
       val_epoch_av := val_epoch_av i;
       total_time := ((init_time + t - start_time) / 3600)%Q;
       best_val_loss := best_val_loss i |} in
  Ok (save_model "model" w).

(** The statements after the epoch loop. *)
Definition final_test (w : world) : result world :=
  '(test_output, test_loss, w) ←
    call_only_proc (test_input dataset) (test_target dataset)
      (Args.test_chunk args) w;
  let w := write_file "testloss_final.txt" (LossText test_loss) w in
  match val_output w with
  | None => Raise (NameError "val_output")
  | Some val_out =>
    samples ← col00 val_out;
    let w := write_file "test_out_final.wav" (Wav fs samples) w in
    match read_file "model_best" (files w) with
    | Some (Model best_val_net _) =>
      let w :=
        {| network := load_model best_val_net;
           training_info := training_info w;
           files := files w; scalars := scalars w; ticks := ticks w;
           allocs := allocs w; val_output := val_output w |} in
      '(test_output, test_loss, w) ←
        call_only_proc (test_input dataset) (test_target dataset)
          (Args.test_chunk args) w;
      let w := write_file "testloss_bestv.txt" (LossText test_loss) w in
      samples ← col00 test_output;
      let w := write_file "test_out_bestv.wav" (Wav fs samples) w in
      Ok (write_file "maxmemusage.txt" (MemText max_memory_allocated) w)
    | _ => Raise (FileNotFoundError "model_best")
    end
  end.

(** Modelled from the spec: the Training-Progress Record of a run
    without checkpoint ([networks.init_model] is not part of the
    script): epoch 0, empty loss histories, best validation loss
    infinity, zero cumulative time. *)
Definition fresh_info : info_t :=
  {| current_epoch := 0; training_losses := []; validation_losses := [];
     train_epoch_av := 0; val_epoch_av := 0; total_time := 0;
     best_val_loss := Infinity |}.

(** Modelled from the spec: [networks.init_model] loads the latest
    checkpoint of the save directory verbatim when there is one, and
    makes a new model otherwise. *)
Definition init_model (fl : list (string * file)) : net * info_t :=
  match read_file "model" fl with
  | Some (Model n i) => (load_model n, i)
  | _ => (new_model, fresh_info)
  end.

(** The epoch loop, from the record the network carries. *)
Definition epoch_loop (start_time init_time : Q) (w : world)
    : result world :=
  for_each
    (py_range2 (current_epoch (training_info w) + 1) (Args.epochs args + 1))
    (epoch_body start_time init_time) w.

(** The main block up to the end of the epoch loop, run on the save
    directory [fl]. [args] is what the block works with once a config
    file, if any, has been written over the defaults; the choice of the
    device and the loading of the data set change nothing below. *)
Definition main_loop (fl : list (string * file)) : result world :=
  let start_time := clock 0 in
  let '(n, i) := init_model fl in
  let w :=
    {| network := n; training_info := i; files := fl; scalars := [];
       ticks := 1; allocs := 0; val_output := None |} in
  let '(t, w) := time_time w in
  let init_time := (t - start_time + total_time i * 3600)%Q in
  epoch_loop start_time init_time w.

(** The main block. *)
Definition main (fl : list (string * file)) : result world :=
  w ← main_loop fl;
  final_test w.

(** *** Reference descriptions used by the properties *)

(** The network applied to a list of chunks in order, the hidden state
    detached after each: the concatenated outputs and the network
    afterwards. *)
Definition feed_step (acc : list (list Y) * net) (x : list (list X))
    : list (list Y) * net :=
  let '(y, nnet) := forward acc.2 x in (acc.1 ++ y, detach_hidden nnet).
Definition feed (nnet : net) (xs : list (list (list X)))
    : list (list Y) * net :=
  fold_left feed_step xs ([], nnet).

(** The first [n] consecutive chunks of [chunk] frames of a tensor. *)
Definition full_chunks {A} (t : list A) (chunk : Z) (n : nat)
    : list (list A) :=
  map (fun l => take (Z.to_nat chunk) (drop (l * Z.to_nat chunk) t))
      (seq 0 n).

(** One update of truncated back-propagation on the window
    [(start, input end, target end)] of a batch: the network after the
    optimiser step, and the scalar loss appended to the losses. *)
Definition tbptt_step (input_batch : list (list X))
    (target_batch : list (list Y)) (acc : net * list R)
    (w : Z * Z * Z) : net * list R :=
  let '(start, in_end, tgt_end) := w in
  let '(output, nnet) := forward acc.1 (py_slice input_batch start in_end) in
  let loss := loss_fcn output (py_slice target_batch start tgt_end) in
  (zero_grad (detach_hidden (optim_step (backward loss nnet))),
   acc.2 ++ [item loss]).
Definition tbptt (input_batch : list (list X))
    (target_batch : list (list Y)) (nnet : net) (ws : list (Z * Z * Z))
    : net * list R :=
  fold_left (tbptt_step input_batch target_batch) ws (nnet, []).

(** The [n] windows that start at [start], are [step] apart, and span
    [in_len] frames of the input and [tgt_len] frames of the target. *)
Definition windows (start step in_len tgt_len : Z) (n : nat)
    : list (Z * Z * Z) :=
  map (fun k : nat =>
         let s := start + Z.of_nat k * step in
         (s, s + in_len, s + tgt_len))
      (seq 0 n).

(** A window is aligned on a batch when the input slice and the target
    slice it cuts have the same length. *)
Definition aligned (input_batch : list (list X))
    (target_batch : list (list Y)) (w : Z * Z * Z) : Prop :=
  let '(start, in_end, tgt_end) := w in
  length (py_slice input_batch start in_end)
  = length (py_slice target_batch start tgt_end).

(** [math.ceil((T - init_len) / up_fr)] for a non-zero [up_fr]. *)
Definition n_steps (T init_len up_fr : Z) : Z :=
  math_ceil (inject_Z (T - init_len) / inject_Z up_fr).

(** Sum and mean of a list of losses. *)
Definition rsum (l : list R) : R := fold_left radd l rzero.
Definition rmean (l : list R) : R := rdiv (rsum l) (Z.of_nat (length l)).

(** One mini-batch given by its segment indices: priming pass, updates
    over the windows of the batch, reset of the hidden state. The
    losses of its updates and the network afterwards. *)
Definition run_batch (input_data : list (list X))
    (target_data : list (list Y)) (init_len up_fr : Z) (nnet : net)
    (idx : list nat) : result (list R * net) :=
  input_batch ← index_segments input_data idx;
  target_batch ← index_segments target_data idx;
  let nnet := zero_grad (forward nnet (py_slice input_batch 0 init_len)).2 in
  let '(nnet, losses) :=
    tbptt input_batch target_batch nnet
      (windows init_len (Args.up_fr args) up_fr (Args.up_fr args)
         (Z.to_nat (n_steps (Z.of_nat (length input_batch)) init_len up_fr)))
  in
  Ok (losses, reset_hidden nnet).

Fixpoint run_batches (input_data : list (list X))
    (target_data : list (list Y)) (init_len up_fr : Z) (nnet : net)
    (batches : list (list nat)) : result (list (list R) * net) :=
  match batches with
  | [] => Ok ([], nnet)
  | idx :: rest =>
    '(l, nnet) ← run_batch input_data target_data init_len up_fr nnet idx;
    '(ls, nnet) ← run_batches input_data target_data init_len up_fr nnet rest;
    Ok (l :: ls, nnet)
  end.

(** The stored best validation loss is the least of the validation
    losses recorded so far, infinity when there is none. *)
Definition best_is_min (i : info_t) : Prop :=
  match best_val_loss i with
  | Infinity => validation_losses i = []
  | Finite m =>
    m ∈ validation_losses i
    ∧ ∀ v, v ∈ validation_losses i → rltb v m = false
  end.

(** The epochs under which a training loss was sent to the metrics
    stream. *)
Definition train_epochs_logged (l : list (string * R * Z)) : list Z :=
  map snd (List.filter (fun x => String.eqb x.1.1 "Loss/train") l).

(** Every checkpoint among the files [l] records a cumulative time of
    at least [t]. *)
Definition checkpoints_from (t : Q) (l : list (string * file)) : Prop :=
  Forall (fun nf : string * file =>
            match nf.2 with
            | Model _ i => (t <= total_time i)%Q
            | _ => True
            end) l.

(** The values sent to the metrics stream under [tag] with their
    epochs, in order. *)
Definition logged (tag : string) (l : list (string * R * Z))
    : list (R * Z) :=
  map (fun x : string * R * Z => (x.1.2, x.2))
      (List.filter (fun x : string * R * Z => String.eqb x.1.1 tag) l).

(** The epochs of a list at which the epoch loop validates. *)
Definition validation_epochs (es : list Z) : list Z :=
  List.filter (fun e => e mod Args.validation_f args =? 0) es.

(** The files of the best validation agree with the record: when the
    stored best loss is finite, [bestvloss.txt] holds it and
    [model_best] is a checkpoint whose record stores it. *)
Definition best_files_agree (w : world) : Prop :=
  match best_val_loss (training_info w) with
  | Infinity => True
  | Finite m =>
    read_file "bestvloss.txt" (files w) = Some (LossText m)
    ∧ ∃ n j,
        read_file "model_best" (files w) = Some (Model n j)
        ∧ best_val_loss j = Finite m
  end.

(** The losses are finite numbers: [<] on them is a strict order in
    which incomparable losses compare alike with every other loss, and
    every loss is below infinity. *)
Definition finite_losses : Prop :=
  (∀ a, rltb a a = false)
  ∧ (∀ a b c, rltb a b = true → rltb b c = true → rltb a c = true)
  ∧ (∀ a b c, rltb a c = true → rltb a b = true ∨ rltb b c = true)
  ∧ (∀ a, rlt_inf a = true).

(** The segments [idx] of every frame of a tensor, in the order of
    [idx]. *)
Definition select_segments {A} (t : list (list A)) (idx : list nat)
    : list (list A) :=
  map (fun frame : list A => omap (fun i => frame !! i) idx) t.

(** One mini-batch given by its tensors: priming pass, updates over the
    windows of the batch, reset of the hidden state. The losses of its
    updates and the network afterwards. *)
Definition train_batch (input_batch : list (list X))
    (target_batch : list (list Y)) (init_len up_fr : Z) (nnet : net)
    : list R * net :=
  let nnet := zero_grad (forward nnet (py_slice input_batch 0 init_len)).2 in
  let r :=
    tbptt input_batch target_batch nnet
      (windows init_len (Args.up_fr args) up_fr (Args.up_fr args)
         (Z.to_nat (n_steps (Z.of_nat (length input_batch)) init_len up_fr)))
  in
  (r.2, reset_hidden r.1).

(** The mini-batches of the index lists [batches], one after the other:
    the losses of each and the network afterwards. *)
Definition train_batches_step (input_data : list (list X))
    (target_data : list (list Y)) (init_len up_fr : Z)
    (acc : list (list R) * net) (idx : list nat) : list (list R) * net :=
  let r :=
    train_batch (select_segments input_data idx)
      (select_segments target_data idx) init_len up_fr acc.2 in
  (acc.1 ++ [r.1], r.2).
Definition train_batches (input_data : list (list X))
    (target_data : list (list Y)) (init_len up_fr : Z) (nnet : net)
    (batches : list (list nat)) : list (list R) * net :=
  fold_left (train_batches_step input_data target_data init_len up_fr)
    batches ([], nnet).

(** Once a validation has run, a stored best loss that is still
    infinity means that a recorded validation loss is not below
    infinity. *)
Definition validated_best (w : world) : Prop :=
  val_output w ≠ None →
  best_val_loss (training_info w) = Infinity →
  ∃ v, v ∈ validation_losses (training_info w) ∧ rlt_inf v = false.

End Script.

(** ** A recording network, for running the script on concrete data

    The state of the network is the list of the inputs it has been
    applied to, in order, and its output is its input; the optimiser
    does nothing. Data are integers, losses are rationals. *)

Module Recorder.

Definition record (n : list (list (list Z))) (x : list (list Z))
    : list (list Z) * list (list (list Z)) :=
  (x, n ++ [x]).

(** Sizes along the time axis of the inputs seen so far. *)
Definition sizes (n : list (list (list Z))) : list Z :=
  map (fun x => Z.of_nat (length x)) n.

(** [n] frames of [s] segments holding [v]. *)
Definition const (v : Z) (s n : nat) : list (list Z) :=
  replicate n (replicate s v).

(** The loss: the sum of the entries of the output minus that of the
    target. *)
Definition total (t : list (list Z)) : Z := foldr Z.add 0 (concat t).
Definition excess (o t : list (list Z)) : Z := total o - total t.

(** [<] on rationals. *)
Definition qltb (a b : Q) : bool := negb (Qle_bool b a).

(** The collaborators: the wall clock advances by a second at each
    reading, [randperm] draws the reversed order, uninitialised memory
    holds [-1]. *)
Definition env (a : Args.t) (d : dataset_t Z Z) : Env :=
  {| X := Z; Y := Z; W := Z; net := list (list (list Z)); loss_t := Z;
     R := Q;
     forward := record; zero_grad := id; detach_hidden := id;
     reset_hidden := id; loss_fcn := excess;
     backward := fun _ n => n; optim_step := id; item := inject_Z;
     rzero := 0%Q; radd := Qplus; rdiv := fun q z => (q / inject_Z z)%Q;
     rltb := qltb; rlt_inf := fun _ => true;
     args := a; dataset := d;
     clock := fun n => inject_Z (Z.of_nat n);
     randperm := fun _ n => rev (seq 0 n);
     uninit := fun _ _ => [-1];
     fs := 44100; chan0 := id; load_model := id; new_model := [];
     max_memory_allocated := 0 |}.






End Recorder.

Module Runs.

Definition mk_args (eps vf bs il uf vc tc : Z) : Args.t :=
  {| Args.epochs := eps; Args.validation_f := vf; Args.batch_size := bs;
     Args.init_len := il; Args.up_fr := uf;
     Args.val_chunk := vc; Args.test_chunk := tc |}.

(** A data set whose subsets hold the values 1, 2 and 3: a training
    subset of [s] segments of [t] frames, validation and test subsets of
    one segment of [v] frames. *)
Definition data (s t v : nat) : dataset_t Z Z :=
  {| train_input := Recorder.const 1 s t;
     train_target := Recorder.const 1 s t;
     val_input := Recorder.const 2 1 v;
     val_target := Recorder.const 2 1 v;
     test_input := Recorder.const 3 1 v;
     test_target := Recorder.const 3 1 v |}.

(** [only_proc] on [len] one-segment frames with the recording network,
    for a given [args.val_chunk]: the sizes of the chunks the network
    has processed, the length of the returned output, and its last
    sample. *)
Definition only_proc_run (val_chunk len chunk : Z)
    : result (list Z * Z * option (list Z)) :=
  let e := Recorder.env (mk_args 4 2 50 200 1000 val_chunk chunk)
             (data 1 1 1) in
  '(out, _, st) ←
    only_proc (env := e) (fun _ => [-1])
      (Recorder.const 7 1 (Z.to_nat len)) (Recorder.const 7 1 (Z.to_nat len))
      [] chunk;
  Ok (Recorder.sizes st, Z.of_nat (length out), last out).

(** [train_epoch] on [s] segments of [t] frames with the recording
    network, for a given [args.up_fr]: the sizes of the inputs the
    network has processed and the segments of each, and the value
    returned. *)
Definition train_epoch_run (g : Z) (s t : nat) (bs il uf : Z)
    : result (list (Z * Z) * Q) :=
  let e := Recorder.env (mk_args 4 2 bs il g 100000 100000) (data s t 1) in
  '(v, st) ←
    train_epoch (env := e) (fun n => rev (seq 0 n))
      (Recorder.const 1 s t) (Recorder.const 2 s t) [] bs il uf;
  Ok (map (fun x : list (list Z) =>
             (Z.of_nat (length x), Z.of_nat (shape1 x))) st, v).

(** The save directory after the main block on an empty directory: the
    content of a file, if it is audio. *)
Definition main_audio (e : Env) (name : string) : result (option (list W)) :=
  w ← main (env := e) [];
  Ok (match read_file name (files w) with
      | Some (Wav _ samples) => Some samples
      | _ => None
      end).

End Runs.

Section Properties.

Context {env : Env}.

(** ** Properties *)

(** *** Quotients, ranges and slices *)

Lemma Qfloor_div (a b : Z) :
  0 < b → Qfloor (inject_Z a / inject_Z b) = a / b.
Proof.
  intros Hb. destruct b as [|p|p]; try lia.
  unfold Qdiv, Qinv, Qmult, inject_Z, Qfloor; simpl.
  rewrite Z.mul_1_r. reflexivity.
Qed.

Lemma py_truediv_ok (a b : Z) :
  b ≠ 0 → py_truediv a b = Ok (inject_Z a / inject_Z b)%Q.
Proof.
  intros Hb. unfold py_truediv. destruct (Z.eqb_spec b 0); [lia | done].
Qed.

Lemma math_ceil_div (a b : Z) :
  0 < b → math_ceil (inject_Z a / inject_Z b) = - ((- a) / b).
Proof.
  intros Hb. destruct b as [|p|p]; try lia.
  unfold math_ceil, Qceiling, Qopp, Qdiv, Qinv, Qmult, inject_Z, Qfloor.
  simpl. rewrite Z.mul_1_r. reflexivity.
Qed.

(** [math.ceil(a / b)] is the least [c] with [a <= b * c]. *)
Lemma math_ceil_bounds (a b : Z) :
  0 < b →
  b * (math_ceil (inject_Z a / inject_Z b) - 1) < a
  ≤ b * math_ceil (inject_Z a / inject_Z b).
Proof.
  intros Hb. rewrite math_ceil_div by done.
  pose proof (Z.div_mod (- a) b ltac:(lia)).
  pose proof (Z.mod_pos_bound (- a) b Hb). nia.
Qed.

Lemma py_int_div (a b : Z) :
  0 ≤ a → 0 < b → py_int (inject_Z a / inject_Z b) = a / b.
Proof.
  intros Ha Hb. unfold py_int.
  replace (Qle_bool 0 (inject_Z a / inject_Z b)) with true.
  - by apply Qfloor_div.
  - symmetry. apply Qle_bool_iff.
    destruct b as [|p|p]; try lia.
    unfold Qle, Qdiv, Qinv, Qmult, inject_Z; simpl. lia.
Qed.

Lemma is_integer_div (a b : Z) :
  0 < b → is_integer (inject_Z a / inject_Z b) = (a mod b =? 0).
Proof.
  intros Hb. unfold is_integer. rewrite Qfloor_div by done.
  pose proof (Z.div_mod a b ltac:(lia)) as Hdm.
  destruct b as [|p|p]; try lia.
  unfold Qeq_bool, Qdiv, Qinv, Qmult, inject_Z; simpl.
  rewrite !Z.mul_1_r.
  destruct (Z.eqb_spec (a mod Z.pos p) 0) as [E|E].
  - apply Z.eqb_eq. lia.
  - apply Z.eqb_neq. lia.
Qed.

Lemma py_range_nat (n : nat) :
  py_range (Z.of_nat n) = map Z.of_nat (seq 0 n).
Proof.
  unfold py_range, py_range2.
  replace (Z.to_nat (Z.of_nat n - 0)) with n by lia.
  apply map_ext. intros; lia.
Qed.

Lemma py_range_nonpos (n : Z) : n ≤ 0 → py_range n = [].
Proof.
  intros Hn. unfold py_range, py_range2.
  by replace (Z.to_nat (n - 0)) with 0%nat by lia.
Qed.

Lemma for_each_app {I St} (xs ys : list I) (body : I → St → result St) s :
  for_each (xs ++ ys) body s = (s' ← for_each xs body s; for_each ys body s').
Proof.
  revert s. induction xs as [|x xs IH]; intros s; simpl; [done|].
  unfold mbind, result_bind. destruct (body x s); [apply IH | done].
Qed.

Lemma bind_Ok {A B} (a : A) (f : A → result B) : (Ok a ≫= f) = f a.
Proof. reflexivity. Qed.
Lemma bind_Raise {A B} (e : exn) (f : A → result B) :
  (Raise e ≫= f) = Raise e.
Proof. reflexivity. Qed.

(** Slices with non-negative bounds: clamping is that of [take] and
    [drop]. *)
Lemma py_slice_nat {A} (l : list A) (a b : nat) :
  (a ≤ b)%nat →
  py_slice l (Z.of_nat a) (Z.of_nat b) = take (b - a) (drop a l).
Proof.
  intros H. unfold py_slice, slice_len, slice_start, norm_index.
  destruct (Z.ltb_spec (Z.of_nat a) 0), (Z.ltb_spec (Z.of_nat b) 0);
    try lia.
  destruct (decide (a ≤ length l)%nat) as [Ha|Ha].
  - replace (Z.to_nat (Z.of_nat a `min` Z.of_nat (length l))) with a by lia.
    destruct (decide (b ≤ length l)%nat) as [Hb|Hb].
    + f_equal. lia.
    + rewrite !take_ge; [done | rewrite length_drop; lia
                        | rewrite length_drop; lia].
  - rewrite !drop_ge by lia. by rewrite !take_nil.
Qed.

Lemma py_slice_inside {A} (l : list A) (a b : nat) :
  (a ≤ b ≤ length l)%nat →
  py_slice l (Z.of_nat a) (Z.of_nat b) = take (b - a) (drop a l).
Proof. intros H. apply py_slice_nat. lia. Qed.

Lemma py_range_to_nat (n : Z) : py_range n = py_range (Z.of_nat (Z.to_nat n)).
Proof.
  unfold py_range, py_range2. do 2 f_equal. lia.
Qed.

(** The slice [l[a:-1]] stops before the last element. *)
Lemma py_slice_to_last {A} (l : list A) (a : nat) :
  (a < length l)%nat →
  py_slice l (Z.of_nat a) (-1) = take (length l - 1 - a) (drop a l).
Proof.
  intros H. unfold py_slice, slice_len, slice_start, norm_index.
  destruct (Z.ltb_spec (Z.of_nat a) 0), (Z.ltb_spec (-1) 0); try lia.
  f_equal; [|f_equal]; lia.
Qed.

Lemma set_slice_inside {A} (out v : list A) (a b : nat) :
  (a ≤ b ≤ length out)%nat → length v = (b - a)%nat →
  set_slice out (Z.of_nat a) (Z.of_nat b) v
  = Ok (take a out ++ v ++ drop b out).
Proof.
  intros H Hv. unfold set_slice, slice_len, slice_start, norm_index.
  destruct (Z.ltb_spec (Z.of_nat a) 0), (Z.ltb_spec (Z.of_nat b) 0);
    try lia.
  replace (Z.to_nat (Z.of_nat a `min` Z.of_nat (length out))) with a by lia.
  replace (Z.to_nat (Z.of_nat b `min` Z.of_nat (length out)
                     - Z.of_nat a `min` Z.of_nat (length out)))
    with (b - a)%nat by lia.
  rewrite Hv, Nat.eqb_refl.
  by replace (a + (b - a))%nat with b by lia.
Qed.

(** Whatever its start, [out[a:-1] = v] leaves the last element alone
    and keeps the length. *)
Lemma set_slice_to_last {A} (out v out' : list A) (a : Z) :
  out ≠ [] →
  set_slice out a (-1) v = Ok out' →
  length out' = length out ∧ last out' = last out.
Proof.
  intros Hne. unfold set_slice.
  set (lo := slice_start out a). set (d := slice_len out a (-1)).
  assert (Hlen : (0 < length out)%nat) by (destruct out; simpl; [done|lia]).
  assert (Hb : d = 0%nat ∨ (lo + d < length out)%nat).
  { unfold lo, d, slice_start, slice_len, norm_index.
    destruct (Z.ltb_spec a 0), (Z.ltb_spec (-1) 0); lia. }
  assert (Hlast : ∀ m : list A,
    length m = d →
    length (take lo out ++ m ++ drop (lo + d) out) = length out
    ∧ last (take lo out ++ m ++ drop (lo + d) out) = last out).
  { intros m Hm. destruct Hb as [Hd|Hb].
    - rewrite Hd in *. destruct m; [|done]. simpl.
      by rewrite Nat.add_0_r, take_drop.
    - split.
      + rewrite !length_app, length_take, length_drop. lia.
      + rewrite !last_app.
        destruct (last (drop (lo + d) out)) eqn:E.
        * transitivity (last (take (lo + d) out ++ drop (lo + d) out));
            [by rewrite last_app, E | by rewrite take_drop].
        * apply last_None in E. apply (f_equal length) in E.
          rewrite length_drop in E. simpl in E. lia. }
  destruct (Nat.eqb_spec (length v) d) as [E|E].
  - intros [= <-]. by apply Hlast.
  - destruct v as [|x [|? ?]]; try done.
    intros [= <-]. apply Hlast. by rewrite length_replicate.
Qed.

(** *** The chunk loop of [only_proc] *)

(** The network maps a sequence to one of the same length. *)
Hypothesis forward_length :
  ∀ (n : net) (x : list (list X)), length (forward n x).1 = length x.

Lemma full_chunks_S {A} (t : list A) (chunk : Z) (n : nat) :
  full_chunks t chunk (S n)
  = full_chunks t chunk n
    ++ [take (Z.to_nat chunk) (drop (n * Z.to_nat chunk) t)].
Proof. unfold full_chunks. by rewrite seq_S, map_app. Qed.

Lemma feed_snoc (st : net) xs x :
  feed st (xs ++ [x]) = feed_step (feed st xs) x.
Proof. unfold feed. by rewrite fold_left_app. Qed.

(** After [n] rounds the output holds the outputs of the first [n]
    chunks, followed by what it held before; [l] is the last index. *)
Lemma chunk_loop (input : list (list X)) (out0 : list (list Y))
    (st : net) (lv : option Z) (chunk : Z) (n : nat) :
  0 < chunk → length input = length out0 →
  (n * Z.to_nat chunk ≤ length out0)%nat →
  length (feed st (full_chunks input chunk n)).1 = (n * Z.to_nat chunk)%nat
  ∧ for_each (py_range (Z.of_nat n)) (chunk_body input chunk) (out0, st, lv)
    = Ok ((feed st (full_chunks input chunk n)).1
            ++ drop (n * Z.to_nat chunk) out0,
          (feed st (full_chunks input chunk n)).2,
          match n with O => lv | S m => Some (Z.of_nat m) end).
Proof.
  intros Hc Hlen. induction n as [|n IH]; intros Hn.
  { split; [done|]. simpl. by rewrite drop_0. }
  destruct IH as [IHlen IH]; [lia|].
  set (c := Z.to_nat chunk) in *.
  rewrite full_chunks_S, feed_snoc. fold c.
  destruct (feed st (full_chunks input chunk n)) as [ys st1] eqn:Efeed.
  simpl in IHlen, IH.
  unfold feed_step; simpl.
  pose proof (forward_length st1 (take c (drop (n * c) input))) as Hy.
  destruct (forward st1 (take c (drop (n * c) input))) as [y st2] eqn:Efw.
  simpl in Hy. rewrite length_take, length_drop in Hy.
  split.
  { simpl. rewrite length_app, IHlen, Hy. lia. }
  rewrite py_range_nat in *.
  rewrite seq_S, map_app, for_each_app, IH. simpl.
  unfold chunk_body, mbind, result_bind.
  replace (Z.of_nat n * chunk) with (Z.of_nat (n * c)) by lia.
  replace ((Z.of_nat n + 1) * chunk) with (Z.of_nat (n * c + c)) by lia.
  rewrite py_slice_inside by lia.
  replace (n * c + c - n * c)%nat with c by lia.
  rewrite Efw.
  rewrite set_slice_inside.
  - do 3 f_equal. rewrite take_app_length' by done.
    rewrite <- app_assoc. do 2 f_equal.
    rewrite drop_app_ge by lia. rewrite drop_drop. f_equal. lia.
  - rewrite length_app, length_drop. lia.
  - lia.
Qed.

Lemma empty_like_length {A B} (mem : nat → B) (t : list A) :
  length (empty_like mem t) = length t.
Proof. unfold empty_like. by rewrite length_map, length_seq. Qed.

Lemma empty_like_last {A B} (mem : nat → B) (t : list A) :
  t ≠ [] → last (empty_like mem t) = Some (mem (length t - 1)%nat).
Proof.
  intros Ht. unfold empty_like.
  destruct (length t) as [|m] eqn:E.
  { destruct t; [done | simpl in E; lia]. }
  rewrite seq_S, map_app, last_app. simpl. do 2 f_equal. lia.
Qed.

(** [only_proc] on a length that is no multiple of a positive chunk,
    with at least one full chunk: the state before the write of the
    remainder branch, and the call in terms of that write. *)
Lemma only_proc_unfold (mem : nat → list Y) (input : list (list X))
    (target : list (list Y)) (st : net) (chunk : Z) :
  0 < chunk → length input = length target →
  chunk ≤ Z.of_nat (length target) →
  Z.of_nat (length target) mod chunk ≠ 0 →
  let n := Z.of_nat (length target) / chunk in
  let ys := feed st (full_chunks input chunk (Z.to_nat n)) in
  let y := forward ys.2 (py_slice input (n * chunk) (-1)) in
  let out1 :=
    ys.1 ++ drop (Z.to_nat (n * chunk)) (empty_like mem target) in
  length ys.1 = Z.to_nat (n * chunk) ∧
  only_proc mem input target st chunk
  = (out ← set_slice out1 (n * Args.val_chunk args) (-1) y.1;
     Ok (out, item (loss_fcn out target), reset_hidden y.2)).
Proof.
  intros Hc Hlen Hge Hmod n ys y out1.
  pose proof (Z.div_mod (Z.of_nat (length target)) chunk ltac:(lia)) as Hdm.
  pose proof (Z.mod_pos_bound (Z.of_nat (length target)) chunk Hc) as Hmb.
  assert (Hn : 1 ≤ n).
  { unfold n. apply Z.div_le_lower_bound; lia. }
  assert (Hnc : (Z.to_nat n * Z.to_nat chunk)%nat = Z.to_nat (n * chunk))
    by (fold n in Hdm; nia).
  destruct (chunk_loop input (empty_like mem target) st None chunk
              (Z.to_nat n) Hc) as [Hys Hloop].
  { by rewrite empty_like_length. }
  { rewrite empty_like_length. fold n in Hdm. nia. }
  assert (Hl : match Z.to_nat n with
               | O => None
               | S m => Some (Z.of_nat m)
               end = Some (n - 1)).
  { destruct (Z.to_nat n) eqn:Em; [lia | f_equal; lia]. }
  rewrite Hl, Hnc in Hloop. rewrite Hnc in Hys. fold ys in Hys, Hloop.
  fold out1 in Hloop.
  split; [done|].
  unfold only_proc. rewrite empty_like_length.
  rewrite py_truediv_ok by lia. unfold mbind at 1, result_bind at 1.
  rewrite py_int_div by lia. fold n.
  rewrite <- (Z2Nat.id n) at 1 by lia. rewrite Hloop.
  unfold mbind at 1, result_bind at 1.
  unfold mbind at 1, result_bind at 1.
  rewrite is_integer_div by done.
  destruct (Z.eqb_spec (Z.of_nat (length target) mod chunk) 0); [done|].
  simpl negb. cbv iota.
  unfold remainder_branch, read_local.
  unfold mbind at 2, result_bind at 2.
  replace (n - 1 + 1) with n by lia.
  fold y. destruct y as [y1 y2]. simpl.
  unfold mbind, result_bind.
  by destruct (set_slice out1 (n * Args.val_chunk args) (-1) y1).
Qed.

Lemma empty_like_drop_last {A B} (mem : nat → B) (t : list A) :
  t ≠ [] →
  drop (length t - 1) (empty_like mem t) = [mem (length t - 1)%nat].
Proof.
  intros Ht. unfold empty_like.
  destruct (length t) as [|m] eqn:E.
  { destruct t; [done | simpl in E; lia]. }
  rewrite seq_S, map_app. simpl.
  rewrite drop_app_length'; [by rewrite Nat.sub_0_r|].
  rewrite length_map, length_seq. lia.
Qed.

Lemma set_slice_to_last_inside {A} (out v : list A) (a : nat) :
  (a < length out)%nat → length v = (length out - 1 - a)%nat →
  set_slice out (Z.of_nat a) (-1) v
  = Ok (take a out ++ v ++ drop (length out - 1) out).
Proof.
  intros H Hv. unfold set_slice, slice_len, slice_start, norm_index.
  destruct (Z.ltb_spec (Z.of_nat a) 0), (Z.ltb_spec (-1) 0); try lia.
  replace (Z.to_nat (Z.of_nat a `min` Z.of_nat (length out))) with a by lia.
  replace (Z.to_nat ((-1 + Z.of_nat (length out)) `max` 0
                     - Z.of_nat a `min` Z.of_nat (length out)))
    with (length out - 1 - a)%nat by lia.
  rewrite Hv, Nat.eqb_refl.
  by replace (a + (length out - 1 - a))%nat with (length out - 1)%nat by lia.
Qed.

(** A slice assignment reads its start through the normalisation of
    the bound against the length. *)
Lemma set_slice_norm {A} (out v : list A) (a a' b : Z) :
  norm_index (Z.of_nat (length out)) a
  = norm_index (Z.of_nat (length out)) a' →
  set_slice out a b v = set_slice out a' b v.
Proof.
  intros H. unfold set_slice, slice_start, slice_len. by rewrite H.
Qed.

Lemma norm_index_bounds (len i : Z) :
  0 ≤ len → 0 ≤ norm_index len i ≤ len.
Proof.
  intros H. unfold norm_index. destruct (Z.ltb_spec i 0); lia.
Qed.

(** C9 (as amended). In a call of [only_proc] whose length is no
    multiple of the chunk argument (and that has a full chunk, so that
    [l] is bound, input and target being equally long),
    the remainder branch writes the output of the network on
    [input_data[(l+1)*chunk:-1]] into the slice that starts at
    [(l+1)*args.val_chunk] and ends at [-1].  When that start, read as
    a slice bound (a negative bound counts from the end, and bounds
    are clamped to the length), is the offset [(l+1)*chunk] of the
    remainder, as it is when [args.val_chunk] is the chunk argument,
    the call returns the outputs of all chunks in place up to the last
    sample.  When it is another offset and the remainder has at least
    three samples, the call stops on the shapes of the assignment.
    Whatever [args.val_chunk] is, a returned output has the length of
    the target and its last sample is the uninitialised memory that
    [torch.empty_like] handed out. *)
Theorem only_proc_remainder_write (mem : nat → list Y)
    (input : list (list X)) (target : list (list Y)) (st : net)
    (chunk : Z) :
  0 < chunk → length input = length target →
  chunk ≤ Z.of_nat (length target) →
  Z.of_nat (length target) mod chunk ≠ 0 →
  let n := Z.of_nat (length target) / chunk in
  let ys := feed st (full_chunks input chunk (Z.to_nat n)) in
  let y := forward ys.2 (py_slice input (n * chunk) (-1)) in
  let out1 :=
    ys.1 ++ drop (Z.to_nat (n * chunk)) (empty_like mem target) in
  let start :=
    norm_index (Z.of_nat (length target)) (n * Args.val_chunk args) in
  only_proc mem input target st chunk
  = (out ← set_slice out1 (n * Args.val_chunk args) (-1) y.1;
     Ok (out, item (loss_fcn out target), reset_hidden y.2))
  ∧ (start = n * chunk →
     let out := ys.1 ++ y.1 ++ [mem (length target - 1)%nat] in
     only_proc mem input target st chunk
     = Ok (out, item (loss_fcn out target), reset_hidden y.2))
  ∧ (Args.val_chunk args = chunk →
     let out := ys.1 ++ y.1 ++ [mem (length target - 1)%nat] in
     length y.1
     = Z.to_nat (Z.of_nat (length target) mod chunk - 1)
     ∧ only_proc mem input target st chunk
       = Ok (out, item (loss_fcn out target), reset_hidden y.2))
  ∧ (3 ≤ Z.of_nat (length target) mod chunk → start ≠ n * chunk →
     only_proc mem input target st chunk = Raise ShapeError)
  ∧ (∀ out loss st',
       only_proc mem input target st chunk = Ok (out, loss, st') →
       length out = length target
       ∧ last out = Some (mem (length target - 1)%nat)).
Proof.
  intros Hc Hlen Hge Hmod n ys y out1 start.
  destruct (only_proc_unfold mem input target st chunk Hc Hlen Hge Hmod)
    as [Hys Hop].
  fold n in Hys, Hop. fold ys in Hys, Hop. fold y in Hop.
  fold out1 in Hop.
  pose proof (Z.div_mod (Z.of_nat (length target)) chunk ltac:(lia)) as Hdm.
  pose proof (Z.mod_pos_bound (Z.of_nat (length target)) chunk Hc) as Hmb.
  fold n in Hdm.
  assert (Hn : 1 ≤ n) by (unfold n; apply Z.div_le_lower_bound; lia).
  assert (Hne : target ≠ []) by (intros ->; simpl in *; lia).
  assert (Hout1 : length out1 = length target).
  { unfold out1. rewrite length_app, length_drop, empty_like_length. nia. }
  assert (Hlast1 : last out1 = Some (mem (length target - 1)%nat)).
  { unfold out1. rewrite last_app.
    destruct (last (drop (Z.to_nat (n * chunk)) (empty_like mem target)))
      eqn:E.
    - rewrite <- (empty_like_last mem target Hne).
      transitivity
        (last (take (Z.to_nat (n * chunk)) (empty_like mem target)
               ++ drop (Z.to_nat (n * chunk)) (empty_like mem target)));
        [by rewrite last_app, E | by rewrite take_drop].
    - apply last_None in E. apply (f_equal length) in E.
      rewrite length_drop, empty_like_length in E. simpl in E. nia. }
  assert (Hy : length y.1
               = Z.to_nat (Z.of_nat (length target) mod chunk - 1)).
  { unfold y. rewrite forward_length.
    replace (n * chunk) with (Z.of_nat (Z.to_nat (n * chunk))) by nia.
    rewrite py_slice_to_last by nia.
    rewrite length_take, length_drop. nia. }
  assert (Hplaced :
    set_slice out1 (n * chunk) (-1) y.1
    = Ok (ys.1 ++ y.1 ++ [mem (length target - 1)%nat])).
  { replace (n * chunk) with (Z.of_nat (Z.to_nat (n * chunk))) at 1 by nia.
    rewrite set_slice_to_last_inside by (rewrite ?Hout1; nia).
    do 2 f_equal.
    { unfold out1. by rewrite take_app_length'. }
    f_equal. rewrite Hout1. unfold out1.
    rewrite drop_app_ge by nia. rewrite drop_drop, Hys.
    replace (Z.to_nat (n * chunk) + (length target - 1 - Z.to_nat (n * chunk)))%nat
      with (length target - 1)%nat by nia.
    by apply empty_like_drop_last. }
  assert (Hself : norm_index (Z.of_nat (length target)) (n * chunk)
                  = n * chunk).
  { unfold norm_index. destruct (Z.ltb_spec (n * chunk) 0); nia. }
  split; [done|]. split; [|split; [|split]].
  - intros Hstart out. rewrite Hop.
    rewrite (set_slice_norm out1 y.1 _ (n * chunk));
      [|rewrite Hout1, Hself; exact Hstart].
    by rewrite Hplaced.
  - intros HV out. split; [exact Hy|].
    by rewrite Hop, HV, Hplaced.
  - intros Hthree Hstart. rewrite Hop. unfold set_slice.
    pose proof (norm_index_bounds (Z.of_nat (length target))
                  (n * Args.val_chunk args) ltac:(lia)) as Hb.
    fold start in Hb.
    assert (Hd : length y.1
                 ≠ slice_len out1 (n * Args.val_chunk args) (-1)).
    { unfold slice_len. rewrite Hout1. fold start. rewrite Hy.
      unfold norm_index. destruct (Z.ltb_spec (-1) 0); lia. }
    destruct (Nat.eqb_spec (length y.1)
                (slice_len out1 (n * Args.val_chunk args) (-1))); [done|].
    rewrite Hy in Hd. clear Hop Hplaced.
    destruct y.1 as [|y0 [|y1 yl]]; [done | simpl in Hy; lia | done].
  - intros out loss st' E. rewrite Hop in E.
    destruct (set_slice out1 (n * Args.val_chunk args) (-1) y.1)
      as [o|] eqn:Es; [|done].
    unfold mbind, result_bind in E. injection E as <- _ _.
    apply set_slice_to_last in Es.
    + destruct Es as [-> ->]. done.
    + intros E1. rewrite E1 in Hout1. simpl in Hout1.
      destruct target; [done | simpl in Hout1; lia].
Qed.

(** C10. On a subset whose length is positive and smaller than the
    chunk argument, [only_proc] raises the unbound-variable error for
    [l] and returns nothing. *)
Theorem only_proc_short_subset_unbound (mem : nat → list Y)
    (input : list (list X)) (target : list (list Y)) (st : net)
    (chunk : Z) :
  (0 < length target)%nat → Z.of_nat (length target) < chunk →
  only_proc mem input target st chunk = Raise (UnboundLocalError "l").
Proof.
  intros Hpos Hlt. unfold only_proc. rewrite empty_like_length.
  rewrite py_truediv_ok by lia. unfold mbind at 1, result_bind at 1.
  rewrite py_int_div by lia.
  rewrite Z.div_small by lia. simpl for_each.
  unfold mbind at 1, result_bind at 1.
  unfold mbind at 1, result_bind at 1.
  rewrite is_integer_div by lia.
  rewrite Z.mod_small by lia.
  destruct (Z.eqb_spec (Z.of_nat (length target)) 0); [lia|].
  reflexivity.
Qed.

(** *** The loops of [train_epoch] *)

Lemma tbptt_snoc ib tb (st : net) ws w :
  tbptt ib tb st (ws ++ [w]) = tbptt_step ib tb (tbptt ib tb st ws) w.
Proof. unfold tbptt. by rewrite fold_left_app. Qed.

Lemma windows_S (start step in_len tgt_len : Z) (n : nat) :
  windows start step in_len tgt_len (S n)
  = windows start step in_len tgt_len n
    ++ [(start + Z.of_nat n * step,
         start + Z.of_nat n * step + in_len,
         start + Z.of_nat n * step + tgt_len)].
Proof. unfold windows. by rewrite seq_S, map_app. Qed.

(** [N] rounds of the inner loop from [start_i = s0]: the updates over
    the [N] windows that are [args.up_fr] apart, [up_fr] long on the
    input and [args.up_fr] long on the target. *)
Lemma inner_rounds ib tb (up_fr : Z) (N : nat) (st : net) (s0 : Z) (bl : R)
    (k0 : option Z) :
  let G := Args.up_fr args in
  let r := tbptt ib tb st (windows s0 G up_fr G N) in
  length r.2 = N
  ∧ for_each (py_range (Z.of_nat N)) (inner_body ib tb up_fr)
      (st, s0, bl, k0)
    = Ok (r.1, s0 + Z.of_nat N * G, fold_left radd r.2 bl,
          match N with O => k0 | S m => Some (Z.of_nat m) end).
Proof.
  intros G. induction N as [|N IH]; [split; [done|]; simpl; do 4 f_equal; lia|].
  cbv zeta in *. rewrite windows_S, tbptt_snoc.
  destruct IH as [IHlen IH].
  destruct (tbptt ib tb st (windows s0 G up_fr G N)) as [stN ls] eqn:E.
  simpl in IHlen, IH.
  rewrite py_range_nat in *. rewrite seq_S, map_app, for_each_app, IH.
  simpl. unfold inner_body, tbptt_step, mbind, result_bind. simpl.
  fold G.
  destruct (forward stN
              (py_slice ib (s0 + Z.of_nat N * G)
                 (s0 + Z.of_nat N * G + up_fr))) as [o stN'].
  simpl. split.
  - rewrite length_app, IHlen. simpl. lia.
  - rewrite fold_left_app. simpl. do 4 f_equal. lia.
Qed.

Lemma inner_loop_rounds ib tb (init_len up_fr : Z) (st : net) (bl : R)
    (k0 : option Z) :
  up_fr ≠ 0 →
  let G := Args.up_fr args in
  let N := Z.to_nat (n_steps (Z.of_nat (length ib)) init_len up_fr) in
  let r := tbptt ib tb st (windows init_len G up_fr G N) in
  length r.2 = N
  ∧ inner_loop ib tb init_len up_fr (st, init_len, bl, k0)
    = Ok (r.1, init_len + Z.of_nat N * G, fold_left radd r.2 bl,
          match N with O => k0 | S m => Some (Z.of_nat m) end).
Proof.
  intros Hu G N r.
  destruct (inner_rounds ib tb up_fr N st init_len bl k0) as [Hl Hr].
  split; [done|].
  unfold inner_loop. rewrite py_truediv_ok by done.
  unfold mbind, result_bind. rewrite py_range_to_nat. apply Hr.
Qed.

Lemma mapM_result_cons {A B} (f : A → result B) (x : A) (l : list A) :
  mapM f (x :: l)
  = match f x with
    | Ok y => match mapM f l with
              | Ok k => Ok (y :: k)
              | Raise e => Raise e
              end
    | Raise e => Raise e
    end.
Proof. reflexivity. Qed.

Lemma mapM_result_length {A B} (f : A → result B) (l : list A) (k : list B) :
  mapM f l = Ok k → length k = length l.
Proof.
  revert k. induction l as [|x l IH]; intros k.
  { by intros [= <-]. }
  rewrite mapM_result_cons.
  destruct (f x); [|done]. destruct (mapM f l); [|done].
  intros [= <-]. simpl. f_equal. by apply IH.
Qed.

Lemma mapM_result_ok {A B} (f : A → result B) (l : list A) :
  Forall (fun x => ∃ y, f x = Ok y) l → ∃ k, mapM f l = Ok k.
Proof.
  induction 1 as [|x l [y Hy] _ [k Hk]]; [by eexists|].
  rewrite mapM_result_cons, Hy, Hk. by eexists.
Qed.

Lemma index_segments_length {A} (t b : list (list A)) (idx : list nat) :
  index_segments t idx = Ok b → length b = length t.
Proof. apply mapM_result_length. Qed.

(** Indexing succeeds when every index is a segment of every frame. *)
Lemma index_segments_ok {A} (t : list (list A)) (idx : list nat) (nseg : nat) :
  Forall (fun frame => length frame = nseg) t →
  Forall (fun i => (i < nseg)%nat) idx →
  ∃ b, index_segments t idx = Ok b.
Proof.
  intros Ht Hidx. apply mapM_result_ok.
  eapply Forall_impl; [exact Ht|]. intros frame Hf. simpl.
  apply mapM_result_ok. eapply Forall_impl; [exact Hidx|].
  intros i Hi. simpl in *.
  destruct (lookup_lt_is_Some_2 frame i) as [x Hx]; [lia|].
  rewrite Hx. by eexists.
Qed.

Lemma run_batch_length input target (init_len up_fr : Z) (st st' : net)
    idx l :
  run_batch input target init_len up_fr st idx = Ok (l, st') →
  length l = Z.to_nat (n_steps (Z.of_nat (length input)) init_len up_fr).
Proof.
  unfold run_batch, mbind, result_bind.
  destruct (index_segments input idx) as [ib|] eqn:Ei; [|done].
  destruct (index_segments target idx) as [tb|]; [|done].
  apply index_segments_length in Ei. rewrite Ei.
  set (st1 := zero_grad _).
  set (N := Z.to_nat _).
  destruct (inner_rounds ib tb up_fr N st1 init_len rzero None) as [Hl _].
  cbv zeta in Hl.
  destruct (tbptt ib tb st1 _) as [st2 ls]. intros [= <- _]. exact Hl.
Qed.

(** One round of the outer loop is one mini-batch, whose mean is added
    to [epoch_loss]; the divisor [k + 1] is read from the last inner
    round, or from an earlier batch when there was none. *)
Lemma outer_body_batch (shuffle : list nat) input target
    (bs init_len up_fr j : Z) (e : R) (st : net) (bi kv : option Z) :
  up_fr ≠ 0 →
  outer_body shuffle input target bs init_len up_fr j (e, st, bi, kv)
  = ('(l, st') ←
       run_batch input target init_len up_fr st
         (py_slice shuffle (j * bs) ((j + 1) * bs));
     k ← read_local "k"
           (match length l with O => kv | S m => Some (Z.of_nat m) end);
     Ok (radd e (rdiv (rsum l) (k + 1)), st', Some j, Some k)).
Proof.
  intros Hu. unfold outer_body, run_batch, mbind, result_bind.
  destruct (index_segments input _) as [ib|]; [|done].
  destruct (index_segments target _) as [tb|]; [|done].
  destruct (forward st (py_slice ib 0 init_len)) as [o st0]. simpl.
  destruct (inner_loop_rounds ib tb init_len up_fr (zero_grad st0) rzero kv Hu)
    as [Hl Hr].
  cbv zeta in Hl, Hr. rewrite Hr.
  destruct (tbptt ib tb (zero_grad st0) _) as [st2 ls]. simpl in *.
  rewrite Hl. reflexivity.
Qed.

Lemma last_cons_or {A} (x : A) (l : list A) (d : option A) :
  from_option Some d (last (x :: l)) = from_option Some (Some x) (last l).
Proof. rewrite last_cons. by destruct (last l). Qed.

Lemma run_batches_length input target (init_len up_fr : Z) (st st' : net)
    batches tr :
  run_batches input target init_len up_fr st batches = Ok (tr, st') →
  length tr = length batches
  ∧ Forall (fun l : list R =>
              length l
              = Z.to_nat (n_steps (Z.of_nat (length input)) init_len up_fr))
      tr.
Proof.
  revert st tr. induction batches as [|idx rest IH]; intros st tr; simpl.
  { by intros [= <- _]. }
  unfold mbind, result_bind.
  destruct (run_batch _ _ _ _ st idx) as [[l st1]|] eqn:E1; [|done].
  destruct (run_batches _ _ _ _ st1 rest) as [[ls st2]|] eqn:E2; [|done].
  intros [= <- ->]. apply IH in E2 as [E2 E3].
  apply run_batch_length in E1.
  split; [simpl; by f_equal | by constructor].
Qed.

(** The outer loop over batch numbers [js] when a batch has at least
    one inner round. *)
Lemma outer_rounds (shuffle : list nat) input target (bs init_len up_fr : Z)
    (js : list Z) (e : R) (st : net) (bi kv : option Z) :
  up_fr ≠ 0 →
  let N := Z.to_nat (n_steps (Z.of_nat (length input)) init_len up_fr) in
  (1 ≤ N)%nat →
  for_each js (outer_body shuffle input target bs init_len up_fr)
    (e, st, bi, kv)
  = ('(tr, st') ←
       run_batches input target init_len up_fr st
         (map (fun j => py_slice shuffle (j * bs) ((j + 1) * bs)) js);
     Ok (fold_left radd (map rmean tr) e, st',
         from_option Some bi (last js),
         match js with [] => kv | _ => Some (Z.of_nat N - 1) end)).
Proof.
  intros Hu N HN. revert e st bi kv.
  induction js as [|j js IH]; intros e st bi kv; [done|].
  cbn [for_each map run_batches]. rewrite outer_body_batch by done.
  destruct (run_batch _ _ _ _ st _) as [[l st1]|] eqn:E1;
    [|by rewrite !bind_Raise].
  pose proof (run_batch_length _ _ _ _ _ _ _ _ E1) as Hl. fold N in Hl.
  rewrite !bind_Ok, Hl. destruct N as [|m] eqn:EN; [lia|].
  unfold read_local. rewrite !bind_Ok, IH, last_cons_or.
  destruct (run_batches _ _ _ _ st1 _) as [[ls st2]|];
    [|by rewrite !bind_Raise].
  rewrite !bind_Ok.
  cbn [map fold_left].
  replace (rmean l) with (rdiv (rsum l) (Z.of_nat m + 1))
    by (unfold rmean; rewrite Hl; f_equal; lia).
  do 2 f_equal. destruct js; f_equal; lia.
Qed.

(** A first batch without inner round does not get through: [k] is
    unbound when the mean of the batch is taken. *)
Lemma outer_body_no_round (shuffle : list nat) input target
    (bs init_len up_fr j : Z) (e : R) (st : net) (bi : option Z) s' :
  up_fr ≠ 0 →
  Z.to_nat (n_steps (Z.of_nat (length input)) init_len up_fr) = 0%nat →
  outer_body shuffle input target bs init_len up_fr j (e, st, bi, None)
  ≠ Ok s'.
Proof.
  intros Hu HN. rewrite outer_body_batch by done.
  unfold mbind, result_bind.
  destruct (run_batch _ _ _ _ st _) as [[l st1]|] eqn:E1; [|done].
  apply run_batch_length in E1. rewrite E1, HN. done.
Qed.

Lemma outer_body_zero_up_fr (shuffle : list nat) input target
    (bs init_len j : Z) (s : outer_state) s' :
  outer_body shuffle input target bs init_len 0 j s ≠ Ok s'.
Proof.
  destruct s as [[[e st] bi] kv].
  unfold outer_body, mbind, result_bind.
  destruct (index_segments input _) as [ib|]; [|done].
  destruct (index_segments target _) as [tb|]; [|done].
  destruct (forward st _) as [o st0]. done.
Qed.

(** Batches as slices of the shuffled indices and as consecutive runs. *)
Lemma batch_slices (shuffle : list nat) (bs : Z) (n : nat) :
  0 < bs →
  map (fun j => py_slice shuffle (j * bs) ((j + 1) * bs))
      (py_range (Z.of_nat n))
  = full_chunks shuffle bs n.
Proof.
  intros Hbs. rewrite py_range_nat, map_map. unfold full_chunks.
  apply map_ext. intros i.
  replace (Z.of_nat i * bs) with (Z.of_nat (i * Z.to_nat bs)) by lia.
  replace ((Z.of_nat i + 1) * bs)
    with (Z.of_nat (i * Z.to_nat bs + Z.to_nat bs)) by lia.
  rewrite py_slice_nat by lia. do 2 f_equal. lia.
Qed.

(** [train_epoch] as the mean over the batches of the means of their
    updates, for a positive batch size and at least one inner round. *)
Lemma train_epoch_batches (perm : nat → list nat) input target
    (st : net) (bs init_len up_fr : Z) :
  0 < bs → up_fr ≠ 0 →
  (1 ≤ Z.to_nat (n_steps (Z.of_nat (length input)) init_len up_fr))%nat →
  let shuffle := perm (shape1 input) in
  let nb :=
    Z.to_nat (math_ceil (inject_Z (Z.of_nat (length shuffle)) / inject_Z bs))
  in
  train_epoch perm input target st bs init_len up_fr
  = ('(tr, st') ←
       run_batches input target init_len up_fr st
         (full_chunks shuffle bs nb);
     match nb with
     | O => Raise (UnboundLocalError "batch_i")
     | S _ => Ok (rmean (map rmean tr), st')
     end).
Proof.
  intros Hbs Hu HN shuffle nb. unfold train_epoch. fold shuffle.
  rewrite py_truediv_ok by lia. unfold mbind at 1, result_bind at 1.
  rewrite py_range_to_nat. fold nb.
  rewrite outer_rounds by done. rewrite batch_slices by done.
  unfold mbind, result_bind.
  destruct (run_batches _ _ _ _ st _) as [[tr st']|] eqn:E; [|done].
  apply run_batches_length in E as [E _].
  unfold full_chunks in E. rewrite length_map, length_seq in E.
  destruct nb as [|m] eqn:Enb; [done|].
  rewrite py_range_nat, seq_S, map_app. cbn [map]. rewrite last_snoc.
  cbn [from_option read_local]. unfold rmean at 2.
  rewrite length_map, E. unfold rsum. do 3 f_equal. lia.
Qed.

(** *** Consecutive runs *)

Lemma full_chunks_length {A} (t : list A) (c : Z) (n : nat) :
  length (full_chunks t c n) = n.
Proof. unfold full_chunks. by rewrite length_map, length_seq. Qed.

Lemma full_chunks_lookup {A} (t : list A) (c : Z) (n i : nat) :
  (i < n)%nat →
  full_chunks t c n !! i = Some (take (Z.to_nat c) (drop (i * Z.to_nat c) t)).
Proof.
  intros Hi. unfold full_chunks. rewrite list_lookup_fmap.
  by rewrite (lookup_seq_lt 0 n i Hi).
Qed.

Lemma full_chunks_concat {A} (t : list A) (c : Z) (n : nat) :
  concat (full_chunks t c n) = take (n * Z.to_nat c) t.
Proof.
  induction n as [|n IH]; [done|].
  rewrite full_chunks_S, concat_app, IH. simpl.
  rewrite app_nil_r, take_take_drop. f_equal. lia.
Qed.

Lemma n_steps_bounds (T init_len up_fr : Z) :
  0 < up_fr →
  up_fr * (n_steps T init_len up_fr - 1) < T - init_len
  ≤ up_fr * n_steps T init_len up_fr.
Proof. intros Hu. unfold n_steps. by apply math_ceil_bounds. Qed.

Lemma n_steps_pos (T init_len up_fr : Z) :
  0 < up_fr → init_len < T → 1 ≤ n_steps T init_len up_fr.
Proof. intros Hu HT. pose proof (n_steps_bounds T init_len up_fr Hu). nia. Qed.

Lemma run_batch_ok input target (init_len up_fr : Z) (st : net)
    (idx : list nat) (nseg : nat) :
  Forall (fun frame => length frame = nseg) input →
  Forall (fun frame => length frame = nseg) target →
  Forall (fun i => (i < nseg)%nat) idx →
  ∃ l st', run_batch input target init_len up_fr st idx = Ok (l, st').
Proof.
  intros Hi Ht Hidx. unfold run_batch.
  destruct (index_segments_ok input idx nseg Hi Hidx) as [ib ->].
  destruct (index_segments_ok target idx nseg Ht Hidx) as [tb ->].
  rewrite !bind_Ok. destruct (tbptt ib tb _ _) as [st2 l]. by eexists _, _.
Qed.

Lemma run_batches_ok input target (init_len up_fr : Z) (st : net)
    (batches : list (list nat)) (nseg : nat) :
  Forall (fun frame => length frame = nseg) input →
  Forall (fun frame => length frame = nseg) target →
  Forall (Forall (fun i => (i < nseg)%nat)) batches →
  ∃ tr st', run_batches input target init_len up_fr st batches = Ok (tr, st').
Proof.
  intros Hi Ht Hb. revert st.
  induction Hb as [|idx rest Hidx _ IH]; intros st; [by eexists _, _|].
  cbn [run_batches].
  destruct (run_batch_ok input target init_len up_fr st idx nseg Hi Ht Hidx)
    as (l & st1 & ->).
  rewrite bind_Ok.
  destruct (IH st1) as (ls & st2 & ->). rewrite !bind_Ok. by eexists _, _.
Qed.

(** Indexing yields the selected segments when every index is a
    segment of every frame. *)
Lemma index_segments_select {A} (t : list (list A)) (idx : list nat)
    (nseg : nat) :
  Forall (fun frame => length frame = nseg) t →
  Forall (fun i => (i < nseg)%nat) idx →
  index_segments t idx = Ok (select_segments t idx).
Proof.
  intros Ht Hidx. unfold index_segments, select_segments.
  induction Ht as [|frame t Hf _ IH]; [done|].
  rewrite mapM_result_cons, IH. cbn [map].
  assert (Hrow : mapM (fun i => match frame !! i with
                                | Some x => Ok x
                                | None => Raise IndexError
                                end) idx
                 = Ok (omap (fun i => frame !! i) idx)).
  { clear IH. induction Hidx as [|i idx Hi _ IHi]; [done|].
    rewrite mapM_result_cons, IHi. cbn [omap list_omap].
    destruct (lookup_lt_is_Some_2 frame i) as [x Hx]; [lia|].
    by rewrite Hx. }
  by rewrite Hrow.
Qed.

(** The selection has every frame of the tensor, each with one segment
    for each index, which is the segment of the frame at that index. *)
Lemma select_segments_shape {A} (t : list (list A)) (idx : list nat)
    (nseg : nat) :
  Forall (fun frame => length frame = nseg) t →
  Forall (fun i => (i < nseg)%nat) idx →
  length (select_segments t idx) = length t
  ∧ Forall (fun frame => length frame = length idx) (select_segments t idx)
  ∧ ∀ (k j i : nat) frame,
      t !! k = Some frame → idx !! j = Some i →
      (select_segments t idx !! k) ≫= (.!! j) = frame !! i.
Proof.
  intros Ht Hidx.
  assert (Hrow : ∀ frame : list A, length frame = nseg →
            length (omap (fun i => frame !! i) idx) = length idx
            ∧ ∀ j i, idx !! j = Some i →
                omap (fun i => frame !! i) idx !! j = frame !! i).
  { intros frame Hf. induction Hidx as [|i idx Hi _ IHi].
    { split; [done|]. intros j i Hj. by rewrite lookup_nil in Hj. }
    destruct IHi as [IH1 IH2]. cbn [omap list_omap].
    destruct (lookup_lt_is_Some_2 frame i) as [x Hx]; [lia|].
    rewrite Hx. split; [simpl; by rewrite IH1|].
    intros [|j] i' Hj; simpl in Hj.
    - injection Hj as <-. by rewrite Hx.
    - simpl. by apply IH2. }
  unfold select_segments. split; [by rewrite length_map|]. split.
  - apply Forall_fmap. eapply Forall_impl; [exact Ht|].
    intros frame Hf. simpl. by apply Hrow.
  - intros k j i frame Hk Hj.
    change (map ?f t) with (f <$> t). rewrite list_lookup_fmap, Hk.
    simpl. apply Hrow; [|done].
    rewrite Forall_forall in Ht. apply Ht.
    by apply (list_elem_of_lookup_2 _ k).
Qed.

Lemma run_batch_select input target (init_len up_fr : Z) (st : net)
    (idx : list nat) (nseg : nat) :
  Forall (fun frame => length frame = nseg) input →
  Forall (fun frame => length frame = nseg) target →
  Forall (fun i => (i < nseg)%nat) idx →
  run_batch input target init_len up_fr st idx
  = Ok (train_batch (select_segments input idx)
          (select_segments target idx) init_len up_fr st).
Proof.
  intros Hi Ht Hidx. unfold run_batch, train_batch.
  rewrite (index_segments_select input idx nseg Hi Hidx), bind_Ok.
  rewrite (index_segments_select target idx nseg Ht Hidx), bind_Ok.
  by destruct (tbptt _ _ _ _).
Qed.

Lemma run_batches_select input target (init_len up_fr : Z)
    (batches : list (list nat)) (nseg : nat) :
  Forall (fun frame => length frame = nseg) input →
  Forall (fun frame => length frame = nseg) target →
  Forall (Forall (fun i => (i < nseg)%nat)) batches →
  ∀ (st : net) (acc : list (list R)),
    ∃ tr st',
      run_batches input target init_len up_fr st batches = Ok (tr, st')
      ∧ fold_left (train_batches_step input target init_len up_fr)
          batches (acc, st)
        = (acc ++ tr, st').
Proof.
  intros Hi Ht Hb.
  induction Hb as [|idx rest Hidx _ IH]; intros st acc.
  { exists [], st. by rewrite app_nil_r. }
  cbn [run_batches fold_left].
  rewrite (run_batch_select input target init_len up_fr st idx nseg Hi Ht
             Hidx), bind_Ok.
  unfold train_batches_step at 2. cbn [fst snd].
  destruct (train_batch _ _ init_len up_fr st) as [l st1]. cbn [fst snd].
  destruct (IH st1 (acc ++ [l])) as (tr & st' & Hrun & Hfold).
  exists (l :: tr), st'. rewrite Hrun, bind_Ok. split; [done|].
  by rewrite Hfold, <- app_assoc.
Qed.

(** C2. For a positive batch size [bs] and a training subset of
    [nseg > 0] segments (with sequences longer than [init_len] and a
    positive update interval), [train_epoch] processes
    [ceil(nseg / bs)] mini-batches, which are the consecutive runs of
    [bs] indices of the permutation drawn: all but the last have [bs]
    segments, the last has [nseg mod bs], or [bs] when [bs] divides
    [nseg]. The tensors of a mini-batch hold every frame of the subset
    with the segments of its run, in the order of the run, and the call
    returns what training on these tensors one after the other gives,
    whether or not the last batch is full. *)
Theorem train_epoch_mini_batches (perm : nat → list nat)
    (input : list (list X)) (target : list (list Y)) (st : net)
    (bs init_len up_fr : Z) :
  0 < bs → 0 < up_fr → init_len < Z.of_nat (length input) →
  let nseg := shape1 input in
  let shuffle := perm nseg in
  (0 < nseg)%nat →
  shuffle ≡ₚ seq 0 nseg →
  Forall (fun frame => length frame = nseg) input →
  Forall (fun frame => length frame = nseg) target →
  let nb := Z.to_nat (math_ceil (inject_Z (Z.of_nat nseg) / inject_Z bs)) in
  let batches := full_chunks shuffle bs nb in
  bs * (Z.of_nat nb - 1) < Z.of_nat nseg ≤ bs * Z.of_nat nb
  ∧ length batches = nb
  ∧ concat batches = shuffle
  ∧ (∀ i b, (i < nb - 1)%nat → batches !! i = Some b →
            Z.of_nat (length b) = bs)
  ∧ (∃ b, last batches = Some b
          ∧ Z.of_nat (length b)
            = if Z.of_nat nseg mod bs =? 0 then bs
              else Z.of_nat nseg mod bs)
  ∧ (∀ b, b ∈ batches →
       index_segments input b = Ok (select_segments input b)
       ∧ index_segments target b = Ok (select_segments target b)
       ∧ length (select_segments input b) = length input
       ∧ Forall (fun frame => length frame = length b)
           (select_segments input b)
       ∧ ∀ (k j i : nat) frame,
           input !! k = Some frame → b !! j = Some i →
           (select_segments input b !! k) ≫= (.!! j) = frame !! i)
  ∧ let r := train_batches input target init_len up_fr st batches in
    length r.1 = nb
    ∧ train_epoch perm input target st bs init_len up_fr
      = Ok (rmean (map rmean r.1), r.2).
Proof.
  intros Hbs Hu HT nseg shuffle Hseg Hperm Hin Htg nb batches.
  assert (Hlen : length shuffle = nseg).
  { rewrite Hperm. apply length_seq. }
  pose proof (math_ceil_bounds (Z.of_nat nseg) bs Hbs) as Hceil.
  assert (Hnb : Z.of_nat nb
                = math_ceil (inject_Z (Z.of_nat nseg) / inject_Z bs))
    by (unfold nb; nia).
  rewrite <- Hnb in Hceil.
  pose proof (Z.div_mod (Z.of_nat nseg) bs ltac:(lia)) as Hdm.
  pose proof (Z.mod_pos_bound (Z.of_nat nseg) bs Hbs) as Hmb.
  assert (Hrange : Forall (Forall (fun i => (i < nseg)%nat)) batches).
  { unfold batches, full_chunks. apply Forall_fmap, Forall_forall.
    intros i _. simpl. apply Forall_take, Forall_drop.
    rewrite Hperm. apply Forall_seq. intros; lia. }
  split; [lia|]. split; [apply full_chunks_length|].
  split; [|split; [|split; [|split]]].
  - unfold batches. rewrite full_chunks_concat. apply take_ge. nia.
  - intros i b Hi Hb. unfold batches in Hb.
    rewrite full_chunks_lookup in Hb by lia. injection Hb as <-.
    rewrite length_take, length_drop. nia.
  - exists (take (Z.to_nat bs) (drop ((nb - 1) * Z.to_nat bs) shuffle)).
    split.
    + rewrite last_lookup. unfold batches.
      rewrite full_chunks_length, full_chunks_lookup by lia.
      do 3 f_equal. lia.
    + rewrite length_take, length_drop, Hlen.
      destruct (Z.eqb_spec (Z.of_nat nseg mod bs) 0) as [E|E].
      * assert (Z.of_nat nb = Z.of_nat nseg / bs) by nia. nia.
      * assert (Z.of_nat nb = Z.of_nat nseg / bs + 1) by nia. nia.
  - intros b Hb. rewrite Forall_forall in Hrange.
    specialize (Hrange b Hb).
    destruct (select_segments_shape input b nseg Hin Hrange)
      as (Hl & Hw & Hs).
    split; [by apply (index_segments_select _ _ nseg)|].
    split; [by apply (index_segments_select _ _ nseg)|]. done.
  - destruct (run_batches_select input target init_len up_fr batches nseg
                Hin Htg Hrange st []) as (tr & st' & Hrun & Hfold).
    unfold train_batches. rewrite Hfold. cbn [app fst snd].
    pose proof (run_batches_length _ _ _ _ _ _ _ _ Hrun) as [Hl _].
    unfold batches in Hl. rewrite full_chunks_length in Hl.
    split; [done|].
    rewrite train_epoch_batches; [|done|lia|].
    + fold nseg. fold shuffle. rewrite Hlen. fold nb. fold batches.
      rewrite Hrun, bind_Ok. destruct nb; [lia | done].
    + pose proof (n_steps_pos (Z.of_nat (length input)) init_len up_fr Hu HT).
      lia.
Qed.

Lemma math_ceil_neg_divisor (a b : Z) :
  0 ≤ a → b < 0 → math_ceil (inject_Z a / inject_Z b) ≤ 0.
Proof.
  intros Ha Hb. destruct b as [|p|p]; try lia.
  unfold math_ceil, Qceiling, Qopp, Qdiv, Qinv, Qmult, inject_Z, Qfloor.
  simpl. rewrite Pos.mul_1_l.
  assert (0 ≤ - (a * -1) / Z.pos p) by (apply Z.div_pos; lia). lia.
Qed.

(** C3. Whenever [train_epoch] returns, the value is the sum of the
    per-batch losses divided by the number of mini-batches processed,
    each per-batch loss being the sum of the scalar losses of the
    batch's inner-loop updates divided by their number; there is at
    least one mini-batch, and every mini-batch has at least one
    update. *)
Theorem train_epoch_mean_of_batch_means (perm : nat → list nat)
    (input : list (list X)) (target : list (list Y)) (st st' : net)
    (bs init_len up_fr : Z) (v : R) :
  train_epoch perm input target st bs init_len up_fr = Ok (v, st') →
  let shuffle := perm (shape1 input) in
  let nb :=
    Z.to_nat (math_ceil (inject_Z (Z.of_nat (length shuffle)) / inject_Z bs))
  in
  ∃ tr : list (list R),
    run_batches input target init_len up_fr st (full_chunks shuffle bs nb)
    = Ok (tr, st')
    ∧ length tr = nb ∧ (1 ≤ nb)%nat
    ∧ Forall (fun l => l ≠ []) tr
    ∧ v = rdiv
            (rsum (map (fun l => rdiv (rsum l) (Z.of_nat (length l))) tr))
            (Z.of_nat (length tr)).
Proof.
  intros Hok shuffle nb.
  (* a returning call has a positive batch size, a non-zero update
     interval, a batch and an inner round *)
  assert (Hpre : 0 < bs ∧ up_fr ≠ 0 ∧ (1 ≤ nb)%nat
            ∧ (1 ≤ Z.to_nat
                     (n_steps (Z.of_nat (length input)) init_len up_fr))%nat).
  { revert Hok. unfold train_epoch. fold shuffle. unfold py_truediv.
    destruct (Z.eqb_spec bs 0) as [|Hbs0]; [done|]. rewrite bind_Ok.
    rewrite py_range_to_nat. fold nb.
    destruct nb as [|m] eqn:Enb; [done|].
    rewrite py_range_nat. cbn [seq map for_each].
    destruct (outer_body shuffle input target bs init_len up_fr
                (Z.of_nat 0) (rzero, st, None, None)) as [s1|] eqn:E1;
      [|done].
    intros _.
    assert (Hu : up_fr ≠ 0).
    { intros ->. by apply outer_body_zero_up_fr in E1. }
    split; [|split; [done|split; [lia|]]].
    - destruct (Z.ltb_spec bs 0) as [Hneg|]; [|lia].
      pose proof (math_ceil_neg_divisor (Z.of_nat (length shuffle)) bs
                    ltac:(lia) Hneg).
      unfold nb in Enb. lia.
    - destruct (Z.to_nat (n_steps (Z.of_nat (length input)) init_len up_fr))
        eqn:EN; [|lia].
      by apply outer_body_no_round in E1. }
  destruct Hpre as (Hbs & Hu & Hnb & HN).
  rewrite train_epoch_batches in Hok by done.
  fold shuffle in Hok. fold nb in Hok.
  destruct (run_batches input target init_len up_fr st
              (full_chunks shuffle bs nb)) as [[tr st1]|] eqn:Hrun; [|done].
  rewrite bind_Ok in Hok. destruct nb as [|m] eqn:Enb; [lia|].
  injection Hok as <- <-.
  pose proof (run_batches_length _ _ _ _ _ _ _ _ Hrun) as [Hl HF].
  rewrite full_chunks_length in Hl.
  exists tr. split; [done|]. split; [done|]. split; [lia|]. split.
  - eapply Forall_impl; [exact HF|]. intros l Hlen ->. simpl in Hlen. lia.
  - unfold rmean at 1. by rewrite length_map.
Qed.

(** C4. For a batch of [T] time-steps with [0 < T - init_len] and a
    positive update interval, which [train_epoch] is called with as
    [up_fr = args.up_fr], the inner loop runs
    [ceil((T - init_len) / up_fr)] rounds; round [k] updates on the
    window that starts at [init_len + k * up_fr] and is [up_fr] long.
    When [T - init_len] is at most [up_fr] there is one round, on the
    [T - init_len] samples from [init_len] to the end of the batch,
    fewer than [up_fr] when [T - init_len < up_fr]. *)
Theorem inner_loop_iterations (input_batch : list (list X))
    (target_batch : list (list Y)) (init_len up_fr : Z) (st : net)
    (k0 : option Z) :
  let T := Z.of_nat (length input_batch) in
  0 < T - init_len → 0 < up_fr → Args.up_fr args = up_fr →
  let N := n_steps T init_len up_fr in
  let r :=
    tbptt input_batch target_batch st
      (windows init_len up_fr up_fr up_fr (Z.to_nat N)) in
  up_fr * (N - 1) < T - init_len ≤ up_fr * N
  ∧ Z.of_nat (length r.2) = N
  ∧ inner_loop input_batch target_batch init_len up_fr
      (st, init_len, rzero, k0)
    = Ok (r.1, init_len + N * up_fr, rsum r.2, Some (N - 1))
  ∧ (0 ≤ init_len → T - init_len ≤ up_fr →
     N = 1
     ∧ py_slice input_batch init_len (init_len + up_fr)
       = drop (Z.to_nat init_len) input_batch
     ∧ Z.of_nat (length (drop (Z.to_nat init_len) input_batch))
       = T - init_len).
Proof.
  intros T HT Hu HG N r.
  pose proof (n_steps_bounds T init_len up_fr Hu) as Hb. fold N in Hb.
  assert (HN : 1 ≤ N) by nia.
  destruct (inner_loop_rounds input_batch target_batch init_len up_fr st
              rzero k0 ltac:(lia)) as [Hl Hr].
  cbv zeta in Hl, Hr. rewrite HG in Hl, Hr. fold T N r in Hl, Hr.
  split; [done|]. split; [lia|]. split.
  - rewrite Hr. destruct (Z.to_nat N) as [|m] eqn:Em; [lia|].
    unfold rsum. do 3 f_equal; [do 2 f_equal; lia | f_equal; lia].
  - intros Hi Hshort. split; [nia|].
    replace init_len with (Z.of_nat (Z.to_nat init_len)) at 1 2 by lia.
    replace (Z.of_nat (Z.to_nat init_len) + up_fr)
      with (Z.of_nat (Z.to_nat init_len + Z.to_nat up_fr)) by lia.
    rewrite py_slice_nat by lia. split.
    + apply take_ge. rewrite length_drop. lia.
    + rewrite length_drop. lia.
Qed.

(** C8 (as amended). In the inner loop the target slice and the
    advance of the start index use [args.up_fr], the input slice uses
    the parameter [up_fr]: round [k] works on the window that starts at
    [init_len + k * args.up_fr], is [up_fr] long on the input and
    [args.up_fr] long on the target.  For a non-negative [init_len],
    positive intervals, and an input and a target batch of the same
    length, longer than [init_len], every round's output has the length
    of its target slice exactly when the parameter equals
    [args.up_fr] or the batch ends within both intervals of
    [init_len], which is the case of a single short round. *)
Theorem inner_loop_alignment (input_batch : list (list X))
    (target_batch : list (list Y)) (init_len up_fr : Z) (st : net)
    (k0 : option Z) :
  let T := Z.of_nat (length input_batch) in
  let G := Args.up_fr args in
  length target_batch = length input_batch →
  0 ≤ init_len → init_len < T → 0 < up_fr → 0 < G →
  let N := n_steps T init_len up_fr in
  let ws := windows init_len G up_fr G (Z.to_nat N) in
  let r := tbptt input_batch target_batch st ws in
  inner_loop input_batch target_batch init_len up_fr
    (st, init_len, rzero, k0)
  = Ok (r.1, init_len + N * G, rsum r.2, Some (N - 1))
  ∧ (Forall (aligned input_batch target_batch) ws
     ↔ up_fr = G ∨ T - init_len ≤ Z.min up_fr G).
Proof.
  intros T G Hlen Hi HT Hu HG N ws r.
  pose proof (n_steps_bounds T init_len up_fr Hu) as Hb. fold N in Hb.
  assert (HN : 1 ≤ N) by nia.
  destruct (inner_loop_rounds input_batch target_batch init_len up_fr st
              rzero k0 ltac:(lia)) as [Hl Hr].
  cbv zeta in Hl, Hr. fold T G N in Hl, Hr. fold ws in Hl, Hr.
  fold r in Hl, Hr.
  split.
  { rewrite Hr. destruct (Z.to_nat N) as [|m] eqn:Em; [lia|].
    unfold rsum. do 3 f_equal; [do 2 f_equal; lia | f_equal; lia]. }
  assert (Hal : ∀ k : nat,
    aligned input_batch target_batch
      (init_len + Z.of_nat k * G, init_len + Z.of_nat k * G + up_fr,
       init_len + Z.of_nat k * G + G)
    ↔ Z.min (init_len + Z.of_nat k * G + up_fr) T
      = Z.min (init_len + Z.of_nat k * G + G) T
      ∨ T ≤ init_len + Z.of_nat k * G).
  { intros k. unfold aligned.
    replace (init_len + Z.of_nat k * G)
      with (Z.of_nat (Z.to_nat (init_len + Z.of_nat k * G))) by nia.
    set (s := Z.to_nat (init_len + Z.of_nat k * G)).
    replace (Z.of_nat s + up_fr) with (Z.of_nat (s + Z.to_nat up_fr)) by lia.
    replace (Z.of_nat s + G) with (Z.of_nat (s + Z.to_nat G)) by lia.
    rewrite !py_slice_nat by lia.
    rewrite !length_take, !length_drop, Hlen. fold T. lia. }
  split.
  - intros HF. unfold ws in HF.
    destruct (Z.to_nat N) as [|m] eqn:Em; [lia|].
    unfold windows in HF. cbn [seq map] in HF.
    apply Forall_cons_1 in HF as [H0 _].
    apply (Hal 0%nat) in H0. lia.
  - intros Hcase. unfold ws, windows. apply Forall_fmap, Forall_forall.
    intros k _. simpl. apply Hal. destruct Hcase as [->|Hshort]; [by left|].
    destruct k as [|k]; [left; lia|]. right. nia.
Qed.

(** *** The validation event *)

Lemma last_item_snoc {A} (l : list A) (x : A) : last_item (l ++ [x]) = Ok x.
Proof. unfold last_item. by rewrite last_snoc. Qed.

(** What a validation event changes. *)
Lemma validation_block_effect (epoch : Z) (w w' : world) :
  validation_block epoch w = Ok w' →
  let i := training_info w in
  let i' := training_info w' in
  ∃ val_out val_loss,
    val_output w' = Some val_out
    ∧ scalars w' = scalars w ++ [("Loss/val"%string, val_loss, epoch)]
    ∧ ticks w' = S (S (ticks w))
    ∧ current_epoch i' = epoch
    ∧ training_losses i' = training_losses i
    ∧ validation_losses i' = validation_losses i ++ [val_loss]
    ∧ train_epoch_av i' = train_epoch_av i
    ∧ total_time i' = total_time i
    ∧ if lt_best val_loss (best_val_loss i) then
        best_val_loss i' = Finite val_loss
        ∧ ∃ samples n j,
            col00 val_out = Ok samples
            ∧ total_time j = total_time i
            ∧ best_val_loss j = Finite val_loss
            ∧ validation_losses j = validation_losses i ++ [val_loss]
            ∧ files w'
              = ("best_val_out.wav"%string, Wav fs samples)
                :: ("model_best"%string, Model n j)
                :: ("bestvloss.txt"%string, LossText val_loss)
                :: files w
      else best_val_loss i' = best_val_loss i ∧ files w' = files w.
Proof.
  unfold validation_block, call_only_proc. cbn [time_time].
  destruct (only_proc _ _ _ _ _) as [[[val_out val_loss] nnet]|]; [|done].
  rewrite !bind_Ok. cbn [training_info with_info validation_losses].
  rewrite last_item_snoc, bind_Ok.
  unfold update_best.
  cbn [training_info with_info add_scalar best_val_loss].
  intros H. exists val_out, val_loss. revert H.
  destruct (lt_best val_loss (best_val_loss (training_info w))).
  - destruct (col00 val_out) as [samples|]; [|done].
    rewrite !bind_Ok. intros [= <-]. simpl.
    split_and!; try done. eexists _, _, _.
    split_and!; [| | | | reflexivity]; done.
  - rewrite bind_Ok. intros [= <-]. simpl. split_and!; done.
Qed.

(** Against a stored best loss that is the least of the recorded
    losses, the test [val_loss < best_val_loss] on finite losses is the
    test against every recorded loss. *)
Lemma lt_best_iff_all (i : info_t) (val_loss : R) :
  finite_losses →
  best_is_min i →
  (∀ v, v ∈ validation_losses i → rltb val_loss v = true)
  ↔ lt_best val_loss (best_val_loss i) = true.
Proof.
  intros (_ & _ & Hbetween & Hinf).
  unfold best_is_min, lt_best. destruct (best_val_loss i) as [m|].
  - intros [Hm Hleast]. split; [intros H; by apply H|].
    intros Hlt v Hin.
    destruct (Hbetween val_loss v m Hlt) as [|Hc]; [done|].
    by rewrite (Hleast v Hin) in Hc.
  - intros ->. split; [intros _; apply Hinf|].
    intros _ v Hin. by apply elem_of_nil in Hin.
Qed.

(** A validation event on finite losses keeps the stored best loss the
    least of the recorded losses. *)
Lemma validation_keeps_best_is_min (epoch : Z) (w w' : world) :
  finite_losses →
  best_is_min (training_info w) →
  validation_block epoch w = Ok w' →
  best_is_min (training_info w').
Proof.
  intros Hnum Hmin Hv.
  destruct (validation_block_effect epoch w w' Hv)
    as (val_out & val_loss & _ & _ & _ & _ & _ & Hvl & _ & _ & Hbest).
  pose proof (lt_best_iff_all _ val_loss Hnum Hmin) as Hiff.
  destruct Hnum as (Hirrefl & Htrans & _ & Hinf).
  unfold best_is_min. rewrite Hvl.
  destruct (lt_best val_loss (best_val_loss (training_info w))) eqn:Elt.
  - destruct Hbest as [-> _].
    split; [apply elem_of_app; right; by apply list_elem_of_singleton|].
    intros v [Hin| ->%list_elem_of_singleton]%elem_of_app;
      [|apply Hirrefl].
    destruct (rltb v val_loss) eqn:Hlt; [|done].
    destruct Hiff as [_ Hall]. specialize (Hall eq_refl v Hin).
    pose proof (Htrans _ _ _ Hlt Hall) as Hc.
    by rewrite Hirrefl in Hc.
  - destruct Hbest as [-> _]. unfold best_is_min in Hmin.
    unfold lt_best in Elt.
    destruct (best_val_loss (training_info w)) as [m|];
      [|by rewrite Hinf in Elt].
    destruct Hmin as [Hm Hleast]. split; [apply elem_of_app; by left|].
    intros v [Hin| ->%list_elem_of_singleton]%elem_of_app;
      [by apply Hleast | done].
Qed.


(** A new model starts with the invariant, and a round of the epoch
    loop keeps it. *)
Lemma fresh_best_is_min : best_is_min fresh_info.
Proof. reflexivity. Qed.

Lemma epoch_body_keeps_best_is_min (start_time init_time : Q) (epoch : Z)
    (w w' : world) :
  finite_losses →
  best_is_min (training_info w) →
  epoch_body start_time init_time epoch w = Ok w' →
  best_is_min (training_info w').
Proof.
  intros Hnum Hmin. unfold epoch_body. cbn [time_time].
  destruct (train_epoch _ _ _ _ _ _ _) as [[epoch_loss nnet]|]; [|done].
  rewrite bind_Ok. cbn [training_info with_info training_losses].
  rewrite last_item_snoc, bind_Ok.
  unfold py_mod. destruct (Args.validation_f args =? 0); [done|].
  rewrite bind_Ok.
  destruct (epoch mod Args.validation_f args =? 0).
  - match goal with
    | |- context [validation_block epoch ?w0] =>
      destruct (validation_block epoch w0) as [w1|] eqn:Ev; [|done]
    end.
    apply validation_keeps_best_is_min in Ev; [|exact Hnum|exact Hmin].
    rewrite bind_Ok. intros [= <-]. exact Ev.
  - rewrite bind_Ok. intros [= <-]. exact Hmin.
Qed.

Lemma epoch_loop_keeps_best_is_min (start_time init_time : Q) (w w' : world) :
  finite_losses →
  best_is_min (training_info w) →
  epoch_loop start_time init_time w = Ok w' →
  best_is_min (training_info w').
Proof.
  intros Hnum. unfold epoch_loop.
  generalize (py_range2 (current_epoch (training_info w) + 1)
                (Args.epochs args + 1)).
  intros es. revert w. induction es as [|e es IH]; intros w Hmin.
  { by intros [= <-]. }
  cbn [for_each].
  destruct (epoch_body start_time init_time e w) as [w1|] eqn:E1; [|done].
  rewrite bind_Ok. apply IH.
  by apply (epoch_body_keeps_best_is_min start_time init_time e w).
Qed.

(** The epoch loop of a run on an empty save directory leaves the
    stored best loss the least of the recorded losses; by the lemmas
    above it is so before each of its validation events. *)
Lemma main_loop_best_is_min (w' : world) :
  finite_losses →
  main_loop [] = Ok w' → best_is_min (training_info w').
Proof.
  intros Hnum. unfold main_loop, init_model. cbn [read_file time_time].
  apply epoch_loop_keeps_best_is_min; [done|]. apply fresh_best_is_min.
Qed.

(** *** The epoch loop *)

Lemma train_epochs_logged_app (l1 l2 : list (string * R * Z)) :
  train_epochs_logged (l1 ++ l2)
  = train_epochs_logged l1 ++ train_epochs_logged l2.
Proof. unfold train_epochs_logged. by rewrite List.filter_app, map_app. Qed.

(** What one round of the epoch loop changes. *)
Lemma epoch_body_effect (start_time init_time : Q) (epoch : Z)
    (w w' : world) :
  epoch_body start_time init_time epoch w = Ok w' →
  train_epochs_logged (scalars w')
  = train_epochs_logged (scalars w) ++ [epoch]
  ∧ current_epoch (training_info w') = epoch
  ∧ (∃ t, (ticks w < t)%nat
          ∧ total_time (training_info w')
            = ((init_time + clock t - start_time) / 3600)%Q)
  ∧ (ticks w < ticks w')%nat
  ∧ (∃ l, training_losses (training_info w')
          = training_losses (training_info w) ++ [l])
  ∧ ∃ new,
      files w'
      = ("model"%string, Model (network w') (training_info w'))
        :: new ++ files w
      ∧ Forall (fun nf : string * file =>
                  match nf.2 with
                  | Model _ j => total_time j = total_time (training_info w)
                  | _ => True
                  end) new.
Proof.
  unfold epoch_body. cbn [time_time].
  destruct (train_epoch _ _ _ _ _ _ _) as [[epoch_loss nnet]|]; [|done].
  rewrite bind_Ok. cbn [training_info with_info training_losses].
  rewrite last_item_snoc, bind_Ok.
  unfold py_mod. destruct (Args.validation_f args =? 0); [done|].
  rewrite bind_Ok.
  destruct (epoch mod Args.validation_f args =? 0).
  - match goal with
    | |- context [validation_block epoch ?w0] =>
      destruct (validation_block epoch w0) as [w1|] eqn:Ev; [|done]
    end.
    apply validation_block_effect in Ev. cbv zeta in Ev.
    destruct Ev as (vo & vl & _ & Hsc & Htk & _ & Htl & _ & _ & Htt & Hb).
    cbn [training_info with_info add_scalar scalars ticks files
         training_losses total_time best_val_loss] in *.
    rewrite bind_Ok. intros [= <-].
    cbn [training_info with_info save_model write_file scalars ticks files
         training_losses total_time current_epoch network time_time fst snd].
    split_and!.
    + rewrite Hsc, <- app_assoc, train_epochs_logged_app. done.
    + done.
    + exists (ticks w1). split; [lia | done].
    + lia.
    + exists epoch_loss. by rewrite Htl.
    + destruct (lt_best vl (best_val_loss (training_info w))).
      * destruct Hb as (_ & samples & n & j & _ & Hj & _ & _ & ->).
        eexists [_; _; _]. split; [reflexivity|].
        repeat constructor. simpl. by rewrite Hj.
      * destruct Hb as [_ ->]. exists []. split; [done | constructor].
  - rewrite bind_Ok. intros [= <-].
    cbn [training_info with_info save_model write_file scalars ticks files
         training_losses total_time current_epoch network time_time fst snd
         add_scalar].
    split_and!.
    + by rewrite train_epochs_logged_app.
    + done.
    + exists (S (S (ticks w))). split; [lia | done].
    + lia.
    + by exists epoch_loss.
    + exists []. split; [done | constructor].
Qed.

(** The wall clock does not go back. *)
Hypothesis clock_mono : ∀ a b : nat, (a ≤ b)%nat → (clock a <= clock b)%Q.

Lemma time_carried (t0 it st ct : Q) :
  (t0 * 3600 <= it)%Q → (st <= ct)%Q → (t0 <= (it + ct - st) / 3600)%Q.
Proof.
  intros H1 H2. apply Qle_shift_div_l; [reflexivity | lra].
Qed.

Lemma checkpoints_from_app (t : Q) (l1 l2 : list (string * file)) :
  checkpoints_from t l1 → checkpoints_from t l2 →
  checkpoints_from t (l1 ++ l2).
Proof. unfold checkpoints_from. intros. by apply Forall_app. Qed.

(** The rounds of the epoch loop over the epochs [es]: they are logged
    in order, and the cumulative time never falls below [t0] when the
    offset [init_time] carries [t0] hours. *)
Lemma epoch_rounds (t0 init_time : Q) (es : list Z) (w w' : world) :
  (t0 * 3600 <= init_time)%Q →
  (t0 <= total_time (training_info w))%Q →
  for_each es (epoch_body (clock 0) init_time) w = Ok w' →
  train_epochs_logged (scalars w') = train_epochs_logged (scalars w) ++ es
  ∧ (t0 <= total_time (training_info w'))%Q
  ∧ current_epoch (training_info w')
    = default (current_epoch (training_info w)) (last es)
  ∧ length (training_losses (training_info w'))
    = (length (training_losses (training_info w)) + length es)%nat
  ∧ ∃ new, files w' = new ++ files w ∧ checkpoints_from t0 new.
Proof.
  intros Hit. revert w. induction es as [|e es IH]; intros w Ht0.
  { intros [= <-]. rewrite app_nil_r. split_and!; try done.
    exists []. split; [done | constructor]. }
  cbn [for_each].
  destruct (epoch_body (clock 0) init_time e w) as [w1|] eqn:E1; [|done].
  rewrite bind_Ok. intros Hrest.
  apply epoch_body_effect in E1
    as (Hlog & Hce & (t & Ht & Htt) & _ & (l & Hl) & new1 & Hf1 & Hn1).
  assert (Ht1 : (t0 <= total_time (training_info w1))%Q).
  { rewrite Htt. apply time_carried; [done | apply clock_mono; lia]. }
  destruct (IH w1 Ht1 Hrest) as (Hlog' & Ht' & Hce' & Hlen' & new & Hf & Hn).
  split_and!.
  - by rewrite Hlog', Hlog, <- app_assoc.
  - done.
  - rewrite Hce', Hce, last_cons. by destruct (last es).
  - rewrite Hlen', Hl, length_app. simpl. lia.
  - exists (new ++ ("model"%string, Model (network w1) (training_info w1))
                  :: new1).
    split; [by rewrite Hf, Hf1, <- app_assoc|].
    apply checkpoints_from_app; [done|]. constructor; [done|].
    eapply Forall_impl; [exact Hn1|]. intros [name f] Hm. simpl in *.
    destruct f; try done. by rewrite Hm.
Qed.

(** C6. When the save directory holds a checkpoint of epoch [E], the
    epoch loop of the main block, if it completes, has run the epochs
    [E + 1], [E + 2], ... up to [args.epochs] inclusive, in this order
    (none when [E] is not below [args.epochs]), one training loss
    recorded for each; and with a clock that does not go back, the
    cumulative time of the record and of every checkpoint written is
    at least the cumulative time of the checkpoint loaded. *)
Theorem resume_from_checkpoint (fl : list (string * file)) (n0 : net)
    (i0 : info_t) (w' : world) :
  read_file "model" fl = Some (Model n0 i0) →
  main_loop fl = Ok w' →
  let E := current_epoch i0 in
  let count := Z.to_nat (Args.epochs args - E) in
  train_epochs_logged (scalars w')
  = map (fun k : nat => E + 1 + Z.of_nat k) (seq 0 count)
  ∧ (E < Args.epochs args →
     head (train_epochs_logged (scalars w')) = Some (E + 1)
     ∧ last (train_epochs_logged (scalars w')) = Some (Args.epochs args)
     ∧ current_epoch (training_info w') = Args.epochs args)
  ∧ length (training_losses (training_info w'))
    = (length (training_losses i0) + count)%nat
  ∧ (total_time i0 <= total_time (training_info w'))%Q
  ∧ ∃ new, files w' = new ++ fl ∧ checkpoints_from (total_time i0) new.
Proof.
  intros Hck Hloop E count. unfold main_loop, init_model in Hloop.
  rewrite Hck in Hloop. cbn [time_time] in Hloop.
  unfold epoch_loop in Hloop. cbn [training_info] in Hloop. fold E in Hloop.
  assert (Hrange : py_range2 (E + 1) (Args.epochs args + 1)
                   = map (fun k : nat => E + 1 + Z.of_nat k) (seq 0 count)).
  { unfold py_range2, count. do 2 f_equal. lia. }
  rewrite Hrange in Hloop.
  apply (epoch_rounds (total_time i0)) in Hloop
    as (Hlog & Ht & Hce & Hlen & Hnew).
  - cbn [scalars training_info files] in *.
    rewrite length_map, length_seq in Hlen.
    split_and!; try done.
    intros HE. rewrite Hlog. cbn [train_epochs_logged List.filter map app].
    assert (Hcount : count = Z.to_nat (Args.epochs args - E)) by done.
    clearbody count.
    destruct count as [|m]; [lia|]. split_and!.
    + simpl. f_equal. lia.
    + rewrite seq_S, map_app. cbn [map]. rewrite last_snoc. f_equal. lia.
    + rewrite Hce, seq_S, map_app. cbn [map]. rewrite last_snoc.
      simpl. lia.
  - cbn [ticks].
    pose proof (clock_mono 0 1 ltac:(lia)). lra.
  - cbn [training_info]. apply Qle_refl.
Qed.

(** *** The final test evaluation *)

(** What the statements after the epoch loop write as audio: the file
    of the final model holds the output of the last validation, the
    file of the best checkpoint holds the test output of the network
    loaded from it. *)
Lemma final_test_audio (w w' : world) :
  final_test w = Ok w' →
  ∃ val_out samples best info test_out loss nnet samples',
    val_output w = Some val_out
    ∧ col00 val_out = Ok samples
    ∧ read_file "test_out_final.wav" (files w') = Some (Wav fs samples)
    ∧ read_file "model_best" (files w) = Some (Model best info)
    ∧ only_proc (uninit (S (allocs w))) (test_input dataset)
        (test_target dataset) (load_model best) (Args.test_chunk args)
      = Ok (test_out, loss, nnet)
    ∧ col00 test_out = Ok samples'
    ∧ read_file "test_out_bestv.wav" (files w') = Some (Wav fs samples').
Proof.
  unfold final_test, call_only_proc.
  destruct (only_proc _ _ _ (network w) _) as [[[o1 l1] n1]|]; [|done].
  rewrite !bind_Ok. cbn [val_output write_file].
  destruct (val_output w) as [val_out|]; [|done].
  destruct (col00 val_out) as [samples|] eqn:Ev; [|done].
  rewrite bind_Ok. unfold write_file. cbn [files read_file].
  change (String.eqb "test_out_final.wav" "model_best") with false.
  change (String.eqb "testloss_final.txt" "model_best") with false.
  cbv iota.
  destruct (read_file "model_best" (files w)) as [[| | |best info]|]; try done.
  cbn [network allocs training_info files scalars ticks val_output].
  destruct (only_proc _ _ _ (load_model best) _) as [[[o2 l2] n2]|] eqn:E2;
    [|done].
  rewrite !bind_Ok.
  destruct (col00 o2) as [samples'|] eqn:Ec; [|done].
  rewrite bind_Ok. intros [= <-].
  exists val_out, samples, best, info, o2, l2, n2, samples'.
  split_and!; done.
Qed.

(** ** Further properties of the script *)

(** *** [only_proc] *)

(** X1. On a length that is a multiple of a positive chunk, [only_proc]
    returns the outputs of the network on the consecutive chunks, one
    after the other: every sample is written, and neither the
    uninitialised memory nor [args.val_chunk] has a part in the result. *)
Theorem only_proc_exact_multiple (mem : nat → list Y)
    (input : list (list X)) (target : list (list Y)) (st : net)
    (chunk : Z) :
  0 < chunk → length input = length target →
  Z.of_nat (length target) mod chunk = 0 →
  let n := Z.to_nat (Z.of_nat (length target) / chunk) in
  let ys := feed st (full_chunks input chunk n) in
  length ys.1 = length target
  ∧ only_proc mem input target st chunk
    = Ok (ys.1, item (loss_fcn ys.1 target), reset_hidden ys.2).
Proof.
  intros Hc Hlen Hmod n ys.
  pose proof (Z.div_mod (Z.of_nat (length target)) chunk ltac:(lia)) as Hdm.
  assert (Hn : (n * Z.to_nat chunk)%nat = length target).
  { unfold n. pose proof (Z.div_pos (Z.of_nat (length target)) chunk
                            ltac:(lia) Hc). nia. }
  destruct (chunk_loop input (empty_like mem target) st None chunk n Hc)
    as [Hys Hloop].
  { by rewrite empty_like_length. }
  { rewrite empty_like_length. lia. }
  fold ys in Hys, Hloop. split; [lia|].
  unfold only_proc. rewrite empty_like_length.
  rewrite py_truediv_ok by lia. rewrite bind_Ok.
  rewrite py_int_div by lia. rewrite py_range_to_nat. fold n.
  rewrite Hloop, bind_Ok, bind_Ok.
  rewrite is_integer_div by done. rewrite Hmod. cbn [Z.eqb negb].
  rewrite drop_ge by (rewrite empty_like_length; lia).
  rewrite app_nil_r. destruct n; reflexivity.
Qed.

Lemma set_slice_length {A} (out v out' : list A) (a b : Z) :
  set_slice out a b v = Ok out' → length out' = length out.
Proof.
  unfold set_slice.
  set (lo := slice_start out a). set (d := slice_len out a b).
  assert (Hb : (lo + d ≤ length out)%nat).
  { unfold lo, d, slice_start, slice_len, norm_index.
    destruct (Z.ltb_spec a 0), (Z.ltb_spec b 0); lia. }
  destruct (Nat.eqb_spec (length v) d) as [E|E].
  - intros [= <-]. rewrite !length_app, length_take, length_drop. lia.
  - destruct v as [|x [|? ?]]; try done. intros [= <-].
    rewrite !length_app, length_take, length_replicate, length_drop. lia.
Qed.

Lemma chunk_rounds_length (input : list (list X)) (chunk : Z)
    (js : list Z) (s s' : chunk_state) :
  for_each js (chunk_body input chunk) s = Ok s' →
  length s'.1.1 = length s.1.1.
Proof.
  revert s. induction js as [|j js IH]; intros s; [by intros [= <-]|].
  cbn [for_each].
  destruct (chunk_body input chunk j s) as [s1|] eqn:E1; [|done].
  rewrite bind_Ok. intros Hrest. rewrite (IH _ Hrest).
  destruct s as [[out st] lv]. unfold chunk_body in E1.
  destruct (forward st _) as [y st1].
  destruct (set_slice out _ _ y) as [o|] eqn:Es; [|done].
  rewrite bind_Ok in E1. injection E1 as <-. simpl.
  by apply set_slice_length in Es.
Qed.

(** X2. Whatever the chunk, [args.val_chunk] and the lengths of the
    tensors, an output that [only_proc] returns has the length of the
    target. *)
Theorem only_proc_output_length (mem : nat → list Y)
    (input : list (list X)) (target out : list (list Y)) (st st' : net)
    (chunk : Z) (loss : R) :
  only_proc mem input target st chunk = Ok (out, loss, st') →
  length out = length target.
Proof.
  unfold only_proc.
  destruct (py_truediv _ chunk) as [q|]; [|done]. rewrite !bind_Ok.
  destruct (for_each _ _ _) as [[[o1 st1] lv]|] eqn:Hloop; [|done].
  apply chunk_rounds_length in Hloop. simpl in Hloop.
  rewrite empty_like_length in Hloop. rewrite !bind_Ok.
  destruct (negb (is_integer q)).
  - unfold remainder_branch.
    destruct lv as [l|]; cbn [read_local]; [|by rewrite !bind_Raise].
    rewrite bind_Ok.
    destruct (forward st1 _) as [y st2].
    destruct (set_slice o1 _ _ y) as [o2|] eqn:Es; [|done].
    rewrite !bind_Ok. intros [= <- _ _].
    apply set_slice_length in Es. lia.
  - rewrite bind_Ok. by intros [= <- _ _].
Qed.

(** X3. When [args.val_chunk] is not the chunk argument (and is not
    negative), a call whose length leaves a remainder of three samples
    or more after at least one full chunk stops on the shape error of
    the remainder's assignment. *)
Theorem only_proc_other_val_chunk_raises (mem : nat → list Y)
    (input : list (list X)) (target : list (list Y)) (st : net)
    (chunk : Z) :
  0 < chunk → length input = length target →
  chunk ≤ Z.of_nat (length target) →
  3 ≤ Z.of_nat (length target) mod chunk →
  0 ≤ Args.val_chunk args → Args.val_chunk args ≠ chunk →
  only_proc mem input target st chunk = Raise ShapeError.
Proof.
  intros Hc Hlen Hge Hmod HV Hne.
  destruct (only_proc_unfold mem input target st chunk Hc Hlen Hge
              ltac:(lia)) as [Hys Hop].
  cbv zeta in Hys, Hop. rewrite Hop. clear Hop.
  set (n := Z.of_nat (length target) / chunk) in *.
  set (ys := feed st (full_chunks input chunk (Z.to_nat n))) in *.
  pose proof (Z.div_mod (Z.of_nat (length target)) chunk ltac:(lia)) as Hdm.
  pose proof (Z.mod_pos_bound (Z.of_nat (length target)) chunk Hc) as Hmb.
  fold n in Hdm.
  assert (Hn : 1 ≤ n) by (unfold n; apply Z.div_le_lower_bound; lia).
  pose proof (forward_length ys.2 (py_slice input (n * chunk) (-1))) as Hy.
  assert (Hsl : length (py_slice input (n * chunk) (-1))
                = Z.to_nat (Z.of_nat (length target) mod chunk - 1)).
  { replace (n * chunk) with (Z.of_nat (Z.to_nat (n * chunk))) by nia.
    rewrite py_slice_to_last by nia.
    rewrite length_take, length_drop. nia. }
  rewrite Hsl in Hy.
  destruct (forward ys.2 (py_slice input (n * chunk) (-1))) as [y st2].
  simpl in *.
  set (out1 := ys.1 ++ drop (Z.to_nat (n * chunk)) (empty_like mem target)).
  assert (Hout1 : length out1 = length target).
  { unfold out1. rewrite length_app, length_drop, empty_like_length. nia. }
  unfold set_slice.
  assert (Hne' : n * Args.val_chunk args ≠ n * chunk) by nia.
  assert (Hnv : 0 ≤ n * Args.val_chunk args) by nia.
  assert (Hnc : n * chunk
                = Z.of_nat (length target) - Z.of_nat (length target) mod chunk)
    by nia.
  assert (Hd : length y ≠ slice_len out1 (n * Args.val_chunk args) (-1)).
  { unfold slice_len, norm_index. rewrite Hout1.
    rewrite Hnc in Hne'.
    generalize dependent (n * Args.val_chunk args). intros nv.
    destruct (Z.ltb_spec nv 0), (Z.ltb_spec (-1) 0); lia. }
  destruct (Nat.eqb_spec (length y)
              (slice_len out1 (n * Args.val_chunk args) (-1))); [done|].
  destruct y as [|y0 [|y1 y]]; [done | simpl in Hy; nia | done].
Qed.

Lemma py_int_neg_divisor (a b : Z) :
  0 ≤ a → b < 0 → py_int (inject_Z a / inject_Z b) ≤ 0.
Proof.
  intros Ha Hb. unfold py_int.
  pose proof (math_ceil_neg_divisor a b Ha Hb) as Hc. unfold math_ceil in Hc.
  pose proof (Qle_floor_ceiling (inject_Z a / inject_Z b)) as Hfc.
  rewrite <- Zle_Qle in Hfc.
  destruct (Qle_bool 0 (inject_Z a / inject_Z b)); lia.
Qed.

Lemma is_integer_neg_divisor (a b : Z) :
  b < 0 → is_integer (inject_Z a / inject_Z b) = (a mod b =? 0).
Proof.
  intros Hb. destruct b as [|p|p]; try lia.
  unfold is_integer, Qeq_bool, Qdiv, Qinv, Qmult, inject_Z, Qfloor; simpl.
  rewrite Pos.mul_1_l, Z.mul_1_r.
  pose proof (Z.div_mod (a * -1) (Z.pos p) ltac:(lia)) as Hdm.
  pose proof (Z.mod_pos_bound (a * -1) (Z.pos p) ltac:(lia)) as Hmb.
  assert (Hiff : a mod Z.neg p = 0 ↔ (a * -1) mod Z.pos p = 0).
  { rewrite !Z.mod_divide by lia. split; intros [k Hk].
    - exists k. change (Z.neg p) with (- Z.pos p) in Hk. lia.
    - exists k. change (Z.neg p) with (- Z.pos p). lia. }
  destruct (Z.eqb_spec (a mod Z.neg p) 0) as [E|E].
  - apply Z.eqb_eq. apply Hiff in E. lia.
  - apply Z.eqb_neq. intros Heq. apply E, Hiff. lia.
Qed.

(** X4. With a negative chunk, [only_proc] never applies the network
    to a sample of a non-empty subset: when the chunk divides the length
    it returns the uninitialised memory as the output, and the loss
    over it; otherwise it stops on the unassigned loop variable [l]. *)
Theorem only_proc_negative_chunk (mem : nat → list Y)
    (input : list (list X)) (target : list (list Y)) (st : net)
    (chunk : Z) :
  chunk < 0 → (0 < length target)%nat →
  only_proc mem input target st chunk
  = if Z.of_nat (length target) mod chunk =? 0
    then Ok (empty_like mem target,
             item (loss_fcn (empty_like mem target) target),
             reset_hidden st)
    else Raise (UnboundLocalError "l").
Proof.
  intros Hc Hpos. unfold only_proc. rewrite empty_like_length.
  rewrite py_truediv_ok by lia. rewrite bind_Ok.
  rewrite py_range_nonpos by (apply py_int_neg_divisor; lia).
  cbn [for_each]. rewrite !bind_Ok.
  rewrite is_integer_neg_divisor by done.
  by destruct (Z.of_nat (length target) mod chunk =? 0).
Qed.

(** *** [train_epoch] *)

Lemma py_slice_Forall {A} (P : A → Prop) (l : list A) (a b : Z) :
  Forall P l → Forall P (py_slice l a b).
Proof. intros H. unfold py_slice. by apply Forall_take, Forall_drop. Qed.

(** X5. For a positive batch size and update interval and a training
    subset of [nseg > 0] segments whose sequences are no longer than
    [init_len]: on the tensors of the first mini-batch the inner loop
    makes no round and returns its state as it was, the network as the
    priming pass left it; and [train_epoch] stops on the unassigned loop
    variable [k]. *)
Theorem train_epoch_short_sequences_unbound (perm : nat → list nat)
    (input : list (list X)) (target : list (list Y)) (st : net)
    (bs init_len up_fr : Z) :
  0 < bs → 0 < up_fr → Z.of_nat (length input) ≤ init_len →
  let nseg := shape1 input in
  (0 < nseg)%nat →
  perm nseg ≡ₚ seq 0 nseg →
  Forall (fun frame => length frame = nseg) input →
  Forall (fun frame => length frame = nseg) target →
  let idx := py_slice (perm nseg) 0 bs in
  let input_batch := select_segments input idx in
  let target_batch := select_segments target idx in
  index_segments input idx = Ok input_batch
  ∧ index_segments target idx = Ok target_batch
  ∧ (∀ (st1 : net) (batch_loss : R) (k : option Z),
       inner_loop input_batch target_batch init_len up_fr
         (st1, init_len, batch_loss, k)
       = Ok (st1, init_len, batch_loss, k))
  ∧ train_epoch perm input target st bs init_len up_fr
    = Raise (UnboundLocalError "k").
Proof.
  intros Hbs Hu HT nseg Hseg Hperm Hin Htg idx input_batch target_batch.
  assert (Hlen : length (perm nseg) = nseg).
  { rewrite Hperm. apply length_seq. }
  assert (Hidx : Forall (fun i => (i < nseg)%nat) idx).
  { apply py_slice_Forall. rewrite Hperm. apply Forall_seq. intros; lia. }
  pose proof (n_steps_bounds (Z.of_nat (length input)) init_len up_fr Hu)
    as Hsteps.
  split; [by apply (index_segments_select _ _ nseg)|].
  split; [by apply (index_segments_select _ _ nseg)|]. split.
  - intros st1 batch_loss k.
    destruct (inner_loop_rounds input_batch target_batch init_len up_fr st1
                batch_loss k ltac:(lia)) as [_ Hr].
    cbv zeta in Hr. rewrite Hr.
    assert (Hl : length input_batch = length input).
    { unfold input_batch, select_segments. apply length_map. }
    rewrite Hl.
    replace (Z.to_nat (n_steps (Z.of_nat (length input)) init_len up_fr))
      with 0%nat by nia.
    cbn. by rewrite Z.add_0_r.
  - unfold train_epoch. fold nseg. rewrite py_truediv_ok by lia.
    rewrite bind_Ok, py_range_to_nat, Hlen.
    pose proof (math_ceil_bounds (Z.of_nat nseg) bs Hbs) as Hceil.
    destruct (Z.to_nat (math_ceil (inject_Z (Z.of_nat nseg) / inject_Z bs)))
      as [|m] eqn:Enb; [nia|].
    rewrite py_range_nat. cbn [seq map for_each].
    rewrite outer_body_batch by lia.
    destruct (run_batch_ok input target init_len up_fr st
                (py_slice (perm nseg) (Z.of_nat 0 * bs)
                   ((Z.of_nat 0 + 1) * bs))
                nseg Hin Htg) as (l & st1 & Hrun).
    { apply py_slice_Forall. rewrite Hperm. apply Forall_seq. intros; lia. }
    rewrite Hrun, bind_Ok.
    apply run_batch_length in Hrun.
    replace (Z.to_nat (n_steps (Z.of_nat (length input)) init_len up_fr))
      with 0%nat in Hrun by nia.
    rewrite Hrun. reflexivity.
Qed.

(** X6. With a negative batch size, or a positive one and no segment
    drawn, [train_epoch] runs no mini-batch and stops on the unassigned
    loop variable [batch_i] when it divides the epoch loss. *)
Theorem train_epoch_without_batches (perm : nat → list nat)
    (input : list (list X)) (target : list (list Y)) (st : net)
    (bs init_len up_fr : Z) :
  bs < 0 ∨ (0 < bs ∧ perm (shape1 input) = []) →
  train_epoch perm input target st bs init_len up_fr
  = Raise (UnboundLocalError "batch_i").
Proof.
  intros Hcase. unfold train_epoch.
  rewrite py_truediv_ok by (destruct Hcase; lia). rewrite bind_Ok.
  rewrite py_range_nonpos; [reflexivity|].
  destruct Hcase as [Hneg|[Hpos Hnil]].
  - apply math_ceil_neg_divisor; lia.
  - rewrite Hnil. simpl length.
    pose proof (math_ceil_bounds (Z.of_nat 0) bs Hpos). nia.
Qed.

Lemma windows_slices (ib : list (list X)) (init_len up_fr : Z) (n : nat) :
  0 ≤ init_len → 0 < up_fr →
  map (fun w : Z * Z * Z => py_slice ib w.1.1 w.1.2)
      (windows init_len up_fr up_fr up_fr n)
  = full_chunks (drop (Z.to_nat init_len) ib) up_fr n.
Proof.
  intros Hi Hu. unfold windows, full_chunks. rewrite map_map.
  apply map_ext. intros k. simpl.
  replace (init_len + Z.of_nat k * up_fr)
    with (Z.of_nat (Z.to_nat init_len + k * Z.to_nat up_fr)) by lia.
  replace (Z.of_nat (Z.to_nat init_len + k * Z.to_nat up_fr) + up_fr)
    with (Z.of_nat (Z.to_nat init_len + k * Z.to_nat up_fr + Z.to_nat up_fr))
    by lia.
  rewrite py_slice_nat by lia. rewrite drop_drop. do 2 f_equal. lia.
Qed.

(** X7. Called with [up_fr = args.up_fr], the inner loop feeds the
    network the batch from [init_len] on, cut into consecutive slices:
    the input slices of its rounds, one after the other, are the frames
    of the batch from [init_len] to the end, and with the slice of the
    priming pass before them they are the whole batch, each frame
    once. *)
Theorem inner_loop_covers_batch (input_batch : list (list X))
    (target_batch : list (list Y)) (init_len up_fr : Z) (st : net)
    (k0 : option Z) :
  0 ≤ init_len → 0 < up_fr → Args.up_fr args = up_fr →
  let T := Z.of_nat (length input_batch) in
  let N := Z.to_nat (n_steps T init_len up_fr) in
  let ws := windows init_len up_fr up_fr up_fr N in
  let slices := map (fun w : Z * Z * Z => py_slice input_batch w.1.1 w.1.2) ws in
  (∃ k,
     inner_loop input_batch target_batch init_len up_fr
       (st, init_len, rzero, k0)
     = Ok ((tbptt input_batch target_batch st ws).1,
           init_len + Z.of_nat N * up_fr,
           rsum (tbptt input_batch target_batch st ws).2, k))
  ∧ concat slices = drop (Z.to_nat init_len) input_batch
  ∧ py_slice input_batch 0 init_len ++ concat slices = input_batch.
Proof.
  intros Hi Hu HG T N ws slices.
  assert (Hcat : concat slices = drop (Z.to_nat init_len) input_batch).
  { unfold slices, ws. rewrite windows_slices by done.
    rewrite full_chunks_concat. apply take_ge. rewrite length_drop.
    pose proof (n_steps_bounds T init_len up_fr Hu). unfold N, T in *. nia. }
  split; [|split; [done|]].
  - destruct (inner_loop_rounds input_batch target_batch init_len up_fr st
                rzero k0 ltac:(lia)) as [_ Hr].
    cbv zeta in Hr. rewrite HG in Hr. fold T N ws in Hr.
    eexists. exact Hr.
  - rewrite Hcat.
    replace init_len with (Z.of_nat (Z.to_nat init_len)) at 1 by lia.
    change 0 with (Z.of_nat 0). rewrite py_slice_nat by lia.
    rewrite drop_0, Nat.sub_0_r. apply take_drop.
Qed.

(** *** The epoch loop *)

(** A round of the epoch loop, in three steps: the training part, the
    validation when the epoch is a multiple of [args.validation_f], the
    checkpoint. *)
Lemma epoch_body_inv (start_time init_time : Q) (epoch : Z) (w w' : world) :
  epoch_body start_time init_time epoch w = Ok w' →
  ∃ (tl : R) (w1 w2 : world),
    Args.validation_f args ≠ 0
    ∧ (scalars w1 = scalars w ++ [("Loss/train"%string, tl, epoch)]
       ∧ files w1 = files w
       ∧ val_output w1 = val_output w
       ∧ allocs w1 = allocs w
       ∧ training_losses (training_info w1)
         = training_losses (training_info w) ++ [tl]
       ∧ validation_losses (training_info w1)
         = validation_losses (training_info w)
       ∧ best_val_loss (training_info w1)
         = best_val_loss (training_info w))
    ∧ (if epoch mod Args.validation_f args =? 0
       then validation_block epoch w1 = Ok w2 else w2 = w1)
    ∧ (scalars w' = scalars w2
       ∧ files w'
         = ("model"%string, Model (network w') (training_info w'))
           :: files w2
       ∧ val_output w' = val_output w2
       ∧ allocs w' = allocs w2
       ∧ network w' = network w2
       ∧ training_losses (training_info w')
         = training_losses (training_info w2)
       ∧ validation_losses (training_info w')
         = validation_losses (training_info w2)
       ∧ best_val_loss (training_info w')
         = best_val_loss (training_info w2)
       ∧ current_epoch (training_info w') = epoch).
Proof.
  unfold epoch_body. cbn [time_time].
  destruct (train_epoch _ _ _ _ _ _ _) as [[epoch_loss nnet]|]; [|done].
  rewrite bind_Ok. cbn [training_info with_info training_losses].
  rewrite last_item_snoc, bind_Ok.
  unfold py_mod. destruct (Z.eqb_spec (Args.validation_f args) 0); [done|].
  rewrite bind_Ok.
  match goal with
  | |- context [validation_block epoch ?w0] => set (w1 := w0)
  end.
  destruct (epoch mod Args.validation_f args =? 0).
  - destruct (validation_block epoch w1) as [w2|] eqn:Ev; [|done].
    rewrite bind_Ok. intros [= <-]. exists epoch_loss, w1, w2.
    split; [done|]. split; [by split_and!|]. split; [done|].
    by split_and!.
  - rewrite bind_Ok. intros [= <-]. exists epoch_loss, w1, w1.
    split; [done|]. split; [by split_and!|]. split; [done|].
    by split_and!.
Qed.

(** With [args.validation_f] zero, a round of the epoch loop trains and
    then stops on the division by zero of the validation test. *)
Lemma epoch_body_zero_validation_f (start_time init_time : Q)
    (epoch : Z) (w : world) :
  Args.validation_f args = 0 →
  epoch_body start_time init_time epoch w
  = (_ ← train_epoch (randperm epoch) (train_input dataset)
           (train_target dataset) (network w) (Args.batch_size args)
           (Args.init_len args) (Args.up_fr args);
     Raise ZeroDivisionError).
Proof.
  intros Hz. unfold epoch_body. cbn [time_time network].
  destruct (train_epoch _ _ _ _ _ _ _) as [[epoch_loss nnet]|]; [|done].
  rewrite !bind_Ok. cbn [training_info with_info training_losses].
  rewrite last_item_snoc, bind_Ok.
  unfold py_mod. rewrite Hz. reflexivity.
Qed.

(** X8. With [args.validation_f] zero and an epoch left to run after
    the one of the model that [init_model] returns, the main block does
    not complete: it trains the first of these epochs and, when
    [train_epoch] returns, stops on the division by zero of the
    validation test. *)
Theorem main_zero_validation_f (fl : list (string * file)) :
  Args.validation_f args = 0 →
  current_epoch (init_model fl).2 < Args.epochs args →
  main fl
  = (_ ← train_epoch (randperm (current_epoch (init_model fl).2 + 1))
           (train_input dataset) (train_target dataset)
           (init_model fl).1 (Args.batch_size args)
           (Args.init_len args) (Args.up_fr args);
     Raise ZeroDivisionError).
Proof.
  intros Hz HE. unfold main, main_loop.
  destruct (init_model fl) as [n i]. cbn [fst snd] in *.
  cbn [time_time]. unfold epoch_loop. cbn [training_info].
  replace (Args.epochs args + 1)
    with (current_epoch i + 1
          + Z.of_nat (S (Z.to_nat (Args.epochs args - current_epoch i - 1))))
    by lia.
  unfold py_range2.
  replace (Z.to_nat (current_epoch i + 1 + Z.of_nat (S _)
                     - (current_epoch i + 1)))
    with (S (Z.to_nat (Args.epochs args - current_epoch i - 1))) by lia.
  cbn [seq map for_each]. change (Z.of_nat 0) with 0. rewrite Z.add_0_r.
  rewrite epoch_body_zero_validation_f by done. cbn [network].
  by destruct (train_epoch _ _ _ _ _ _ _) as [[epoch_loss nnet]|].
Qed.

Lemma logged_app (tag : string) (l1 l2 : list (string * R * Z)) :
  logged tag (l1 ++ l2) = logged tag l1 ++ logged tag l2.
Proof. unfold logged. by rewrite List.filter_app, map_app. Qed.

(** The rounds of the epoch loop over the epochs [es], as the metrics
    stream and the loss histories see them. *)
Lemma epoch_rounds_log (start_time init_time : Q) (es : list Z)
    (w w' : world) :
  for_each es (epoch_body start_time init_time) w = Ok w' →
  ∃ new,
    scalars w' = scalars w ++ new
    ∧ training_losses (training_info w')
      = training_losses (training_info w)
        ++ map fst (logged "Loss/train" new)
    ∧ validation_losses (training_info w')
      = validation_losses (training_info w)
        ++ map fst (logged "Loss/val" new)
    ∧ map snd (logged "Loss/train" new) = es
    ∧ map snd (logged "Loss/val" new) = validation_epochs es
    ∧ length new = (length es + length (validation_epochs es))%nat.
Proof.
  revert w. induction es as [|e es IH]; intros w.
  { intros [= <-]. exists []. rewrite !app_nil_r. by split_and!. }
  cbn [for_each].
  destruct (epoch_body start_time init_time e w) as [w3|] eqn:E1; [|done].
  rewrite bind_Ok. intros Hrest.
  destruct (IH w3 Hrest) as (new & Hs & Ht & Hv & Hte & Hve & Hlen).
  apply epoch_body_inv in E1
    as (tl & w1 & w2 & _ & (Hs1 & _ & _ & _ & Ht1 & Hv1 & _) & Hval
        & (Hs3 & _ & _ & _ & _ & Ht3 & Hv3 & _)).
  unfold validation_epochs in *. cbn [List.filter].
  destruct (e mod Args.validation_f args =? 0).
  - apply validation_block_effect in Hval. cbv zeta in Hval.
    destruct Hval as (vo & vl & _ & Hs2 & _ & _ & Ht2 & Hv2 & _).
    exists (("Loss/train"%string, tl, e) :: ("Loss/val"%string, vl, e)
            :: new).
    change (("Loss/train"%string, tl, e) :: ("Loss/val"%string, vl, e)
            :: new)
      with ([("Loss/train"%string, tl, e); ("Loss/val"%string, vl, e)]
            ++ new).
    rewrite !logged_app.
    change (logged "Loss/train"
              [("Loss/train"%string, tl, e); ("Loss/val"%string, vl, e)])
      with [(tl, e)].
    change (logged "Loss/val"
              [("Loss/train"%string, tl, e); ("Loss/val"%string, vl, e)])
      with [(vl, e)].
    split_and!.
    + rewrite Hs, Hs3, Hs2, Hs1, <- !app_assoc. done.
    + rewrite Ht, Ht3, Ht2, Ht1, <- app_assoc. done.
    + rewrite Hv, Hv3, Hv2, Hv1, <- app_assoc. done.
    + simpl. by rewrite Hte.
    + simpl. by rewrite Hve.
    + simpl. rewrite Hlen. lia.
  - subst w2.
    exists (("Loss/train"%string, tl, e) :: new).
    change (("Loss/train"%string, tl, e) :: new)
      with ([("Loss/train"%string, tl, e)] ++ new).
    rewrite !logged_app.
    change (logged "Loss/train" [("Loss/train"%string, tl, e)])
      with [(tl, e)].
    change (logged "Loss/val" [("Loss/train"%string, tl, e)])
      with (@nil (R * Z)).
    split_and!.
    + rewrite Hs, Hs3, Hs1, <- !app_assoc. done.
    + rewrite Ht, Ht3, Ht1, <- app_assoc. done.
    + rewrite Hv, Hv3, Hv1. done.
    + simpl. by rewrite Hte.
    + simpl. by rewrite Hve.
    + simpl. rewrite Hlen. lia.
Qed.

(** X9. When the epoch loop completes, the loss histories of the
    record have grown by exactly what the loop sent to the metrics
    stream, in the same order: the training losses under [Loss/train],
    one for each epoch from the one after the record's to [args.epochs],
    and the validation losses under [Loss/val], one for each of these
    epochs that is a multiple of [args.validation_f]; nothing else is
    sent. *)
Theorem epoch_loop_metrics (start_time init_time : Q) (w w' : world) :
  epoch_loop start_time init_time w = Ok w' →
  let es :=
    py_range2 (current_epoch (training_info w) + 1) (Args.epochs args + 1) in
  ∃ new,
    scalars w' = scalars w ++ new
    ∧ training_losses (training_info w')
      = training_losses (training_info w)
        ++ map fst (logged "Loss/train" new)
    ∧ validation_losses (training_info w')
      = validation_losses (training_info w)
        ++ map fst (logged "Loss/val" new)
    ∧ map snd (logged "Loss/train" new) = es
    ∧ map snd (logged "Loss/val" new) = validation_epochs es
    ∧ length new = (length es + length (validation_epochs es))%nat.
Proof. intros H es. by apply (epoch_rounds_log start_time init_time). Qed.

Lemma py_range2_S (a : Z) (n : nat) :
  py_range2 a (a + Z.of_nat (S n))
  = py_range2 a (a + Z.of_nat n) ++ [a + Z.of_nat n].
Proof.
  unfold py_range2.
  replace (Z.to_nat (a + Z.of_nat (S n) - a)) with (S n) by lia.
  replace (Z.to_nat (a + Z.of_nat n - a)) with n by lia.
  by rewrite seq_S, map_app.
Qed.

Lemma div_succ (a v : Z) :
  0 < v →
  (a + 1) / v = a / v + (if (a + 1) mod v =? 0 then 1 else 0).
Proof.
  intros Hv.
  pose proof (Z.div_mod a v ltac:(lia)).
  pose proof (Z.mod_pos_bound a v Hv).
  pose proof (Z.div_mod (a + 1) v ltac:(lia)).
  pose proof (Z.mod_pos_bound (a + 1) v Hv).
  destruct (Z.eqb_spec ((a + 1) mod v) 0); nia.
Qed.

(** The multiples of a positive [args.validation_f] among the epochs
    after [E] up to [E + n]. *)
Lemma validation_epochs_count (E : Z) (n : nat) :
  0 < Args.validation_f args →
  length (validation_epochs (py_range2 (E + 1) (E + 1 + Z.of_nat n)))
  = Z.to_nat ((E + Z.of_nat n) / Args.validation_f args
              - E / Args.validation_f args).
Proof.
  intros Hv. induction n as [|n IH].
  { unfold py_range2. replace (Z.to_nat _) with 0%nat by lia. simpl.
    replace (E + Z.of_nat 0) with E by lia. lia. }
  rewrite py_range2_S. unfold validation_epochs in *.
  rewrite List.filter_app, length_app, IH. cbn [List.filter].
  replace (E + Z.of_nat (S n)) with (E + Z.of_nat n + 1) by lia.
  rewrite (div_succ (E + Z.of_nat n)) by done.
  replace (E + 1 + Z.of_nat n) with (E + Z.of_nat n + 1) by lia.
  assert (E / Args.validation_f args
          ≤ (E + Z.of_nat n) / Args.validation_f args).
  { apply Z.div_le_mono; lia. }
  destruct ((E + Z.of_nat n + 1) mod Args.validation_f args =? 0);
    simpl; lia.
Qed.

(** X10. With a positive [args.validation_f] and a record of epoch [E]
    not beyond [args.epochs], the epoch loop, when it completes, has
    validated [args.epochs // validation_f - E // validation_f] times:
    this is the number of validation losses it has added to the
    record. *)
Theorem epoch_loop_validation_count (start_time init_time : Q)
    (w w' : world) :
  0 < Args.validation_f args →
  current_epoch (training_info w) ≤ Args.epochs args →
  epoch_loop start_time init_time w = Ok w' →
  let E := current_epoch (training_info w) in
  length (validation_losses (training_info w'))
  = (length (validation_losses (training_info w))
     + Z.to_nat (Args.epochs args / Args.validation_f args
                 - E / Args.validation_f args))%nat.
Proof.
  intros Hv HE Hloop E.
  apply epoch_rounds_log in Hloop
    as (new & _ & _ & Hvl & _ & Hve & _).
  rewrite Hvl, length_app, length_map.
  rewrite <- (length_map snd), Hve. f_equal. fold E.
  replace (Args.epochs args + 1)
    with (E + 1 + Z.of_nat (Z.to_nat (Args.epochs args - E))) by lia.
  rewrite validation_epochs_count by done. do 3 f_equal. lia.
Qed.

(** Rounds without a validation leave [val_output] and the memory
    handed out as they were. *)
Lemma epoch_rounds_no_validation (start_time init_time : Q) (es : list Z)
    (w w' : world) :
  validation_epochs es = [] →
  for_each es (epoch_body start_time init_time) w = Ok w' →
  val_output w' = val_output w ∧ allocs w' = allocs w.
Proof.
  revert w. induction es as [|e es IH]; intros w Hnone.
  { by intros [= <-]. }
  cbn [for_each].
  destruct (epoch_body start_time init_time e w) as [w3|] eqn:E1; [|done].
  rewrite bind_Ok. intros Hrest.
  unfold validation_epochs in *. cbn [List.filter] in Hnone.
  apply epoch_body_inv in E1
    as (tl & w1 & w2 & _ & (_ & _ & Ho1 & Ha1 & _) & Hval
        & (_ & _ & Ho3 & Ha3 & _)).
  destruct (e mod Args.validation_f args =? 0); [done|]. subst w2.
  destruct (IH w3 Hnone Hrest) as [Ho Ha].
  split; congruence.
Qed.

Lemma validation_epochs_range_nil (a b : Z) :
  (∀ e, a ≤ e < b → e mod Args.validation_f args ≠ 0) →
  validation_epochs (py_range2 a b) = [].
Proof.
  intros Hnone. unfold py_range2.
  assert (Hk : ∀ k, (k < Z.to_nat (b - a))%nat →
               (a + Z.of_nat k) mod Args.validation_f args ≠ 0).
  { intros k Hk. apply Hnone. lia. }
  clear Hnone. induction (Z.to_nat (b - a)) as [|n IH]; [done|].
  rewrite seq_S, map_app. unfold validation_epochs in *.
  rewrite List.filter_app, IH by (intros; apply Hk; lia).
  cbn [map List.filter app].
  destruct (Z.eqb_spec ((a + Z.of_nat (0 + n)) mod Args.validation_f args) 0)
    as [Hz|_]; [|done].
  exfalso. by apply (Hk n); [lia|].
Qed.

(** X11. When no epoch after the one of the model that [init_model]
    returns, up to [args.epochs], is a multiple of
    [args.validation_f], in particular when no epoch is left to run,
    the main block does not complete: once the epoch loop is over it
    evaluates the test subset and then stops on the unassigned
    [val_output]. *)
Theorem main_without_validation (fl : list (string * file)) (w : world) :
  (∀ e, current_epoch (init_model fl).2 < e ≤ Args.epochs args →
        e mod Args.validation_f args ≠ 0) →
  main_loop fl = Ok w →
  main fl
  = (_ ← only_proc (uninit 0) (test_input dataset) (test_target dataset)
           (network w) (Args.test_chunk args);
     Raise (NameError "val_output")).
Proof.
  intros Hnone Hloop. unfold main. rewrite Hloop, bind_Ok.
  unfold main_loop in Hloop.
  destruct (init_model fl) as [n i] eqn:Ei. cbn [snd] in Hnone.
  cbn [time_time] in Hloop. unfold epoch_loop in Hloop.
  cbn [training_info] in Hloop.
  apply epoch_rounds_no_validation in Hloop as [Ho Ha].
  - cbn [val_output allocs] in Ho, Ha.
    unfold final_test, call_only_proc. rewrite Ha.
    destruct (only_proc _ _ _ _ _) as [[[o l] n1]|]; [|done].
    rewrite !bind_Ok. cbn [val_output write_file]. by rewrite Ho.
  - apply validation_epochs_range_nil. intros e He. apply Hnone. lia.
Qed.

(** A validation keeps the files of the best validation in agreement
    with the record, and leaves the stored best loss at infinity only
    when its loss is not below infinity. *)
Lemma validation_block_best_files (epoch : Z) (w w' : world) :
  best_files_agree w →
  validation_block epoch w = Ok w' →
  best_files_agree w' ∧ validated_best w'.
Proof.
  intros Hagree Hv. apply validation_block_effect in Hv. cbv zeta in Hv.
  destruct Hv as (vo & vl & Ho & _ & _ & _ & _ & Hvl & _ & _ & Hb).
  unfold best_files_agree, validated_best in *. rewrite Hvl.
  destruct (lt_best vl (best_val_loss (training_info w))) eqn:Elt.
  - destruct Hb as (-> & samples & n & j & _ & _ & Hj & _ & ->).
    split; [|done]. split; [done|]. by exists n, j.
  - destruct Hb as [-> ->]. split; [done|].
    intros _ Hinf. rewrite Hinf in Elt. exists vl.
    split; [|exact Elt].
    apply elem_of_app. right. by apply list_elem_of_singleton.
Qed.

Lemma epoch_body_best_files (start_time init_time : Q) (epoch : Z)
    (w w' : world) :
  best_files_agree w ∧ validated_best w →
  epoch_body start_time init_time epoch w = Ok w' →
  best_files_agree w' ∧ validated_best w'.
Proof.
  intros [Hagree Hfin] Hbody.
  apply epoch_body_inv in Hbody
    as (tl & w1 & w2 & _ & (_ & Hf1 & Ho1 & _ & _ & Hv1 & Hb1) & Hval
        & (_ & Hf3 & Ho3 & _ & _ & _ & Hv3 & Hb3 & _)).
  assert (H1 : best_files_agree w1).
  { unfold best_files_agree in *. by rewrite Hb1, Hf1. }
  assert (H2 : best_files_agree w2 ∧ validated_best w2).
  { destruct (epoch mod Args.validation_f args =? 0).
    - by apply (validation_block_best_files epoch w1).
    - subst w2. split; [done|].
      unfold validated_best. by rewrite Ho1, Hb1, Hv1. }
  destruct H2 as [Ha2 Hfin2]. split.
  - unfold best_files_agree in *. rewrite Hb3, Hf3.
    destruct (best_val_loss (training_info w2)); [|done].
    exact Ha2.
  - unfold validated_best. by rewrite Ho3, Hb3, Hv3.
Qed.

(** X12. When the files of the best validation agree with the record
    the epoch loop starts from and no validation has run, they agree
    when the loop completes. Once the loop has validated, and provided
    every validation loss of the record is below infinity (none is
    infinite or not a number), the record's best loss is a stored loss,
    [bestvloss.txt] holds it, and [model_best] is a checkpoint whose
    record stores it: the final test evaluation finds the checkpoint it
    loads. *)
Theorem epoch_loop_best_files (start_time init_time : Q) (w w' : world) :
  best_files_agree w →
  val_output w = None →
  epoch_loop start_time init_time w = Ok w' →
  best_files_agree w'
  ∧ (val_output w' ≠ None →
     (∀ v, v ∈ validation_losses (training_info w') → rlt_inf v = true) →
     ∃ m n j,
       best_val_loss (training_info w') = Finite m
       ∧ read_file "bestvloss.txt" (files w') = Some (LossText m)
       ∧ read_file "model_best" (files w') = Some (Model n j)
       ∧ best_val_loss j = Finite m).
Proof.
  intros Hagree Hnone Hloop.
  assert (Hinv : best_files_agree w' ∧ validated_best w').
  { assert (H0 : best_files_agree w ∧ validated_best w).
    { split; [done|]. unfold validated_best. by rewrite Hnone. }
    clear Hagree Hnone. revert Hloop H0. unfold epoch_loop.
    generalize (py_range2 (current_epoch (training_info w) + 1)
                  (Args.epochs args + 1)).
    intros es. revert w. induction es as [|e es IH]; intros w.
    { by intros [= <-]. }
    cbn [for_each].
    destruct (epoch_body start_time init_time e w) as [w1|] eqn:E1; [|done].
    rewrite bind_Ok. intros Hrest H0. apply (IH w1 Hrest).
    by apply (epoch_body_best_files start_time init_time e w). }
  destruct Hinv as [Ha Hfin]. split; [done|].
  intros Hsome Hnum. unfold best_files_agree in Ha.
  unfold validated_best in Hfin.
  destruct (best_val_loss (training_info w')) as [m|].
  - destruct Ha as (Hl & n & j & Hm & Hj). by exists m, n, j.
  - destruct (Hfin Hsome eq_refl) as (v & Hv & Hfalse).
    by rewrite (Hnum v Hv) in Hfalse.
Qed.

(** *** The final test evaluation *)

(** X13. When the final test evaluation completes, it has added five
    files to the save directory and changed none: the two loss files
    hold the test loss of the final network and of the network loaded
    from [model_best], in this order of writing. The record, the
    metrics stream and the checkpoints are as the epoch loop left
    them. *)
Theorem final_test_files (w w' : world) :
  final_test w = Ok w' →
  ∃ o1 l1 n1 vo s1 best info o2 l2 s2,
    only_proc (uninit (allocs w)) (test_input dataset)
      (test_target dataset) (network w) (Args.test_chunk args)
    = Ok (o1, l1, n1)
    ∧ val_output w = Some vo
    ∧ col00 vo = Ok s1
    ∧ read_file "model_best" (files w) = Some (Model best info)
    ∧ only_proc (uninit (S (allocs w))) (test_input dataset)
        (test_target dataset) (load_model best) (Args.test_chunk args)
      = Ok (o2, l2, network w')
    ∧ col00 o2 = Ok s2
    ∧ files w'
      = [("maxmemusage.txt"%string, MemText max_memory_allocated);
         ("test_out_bestv.wav"%string, Wav fs s2);
         ("testloss_bestv.txt"%string, LossText l2);
         ("test_out_final.wav"%string, Wav fs s1);
         ("testloss_final.txt"%string, LossText l1)] ++ files w
    ∧ training_info w' = training_info w
    ∧ scalars w' = scalars w
    ∧ read_file "model" (files w') = read_file "model" (files w)
    ∧ read_file "model_best" (files w') = read_file "model_best" (files w).
Proof.
  unfold final_test, call_only_proc.
  destruct (only_proc _ _ _ (network w) _) as [[[o1 l1] n1]|]; [|done].
  rewrite !bind_Ok. cbn [val_output write_file].
  destruct (val_output w) as [val_out|]; [|done].
  destruct (col00 val_out) as [samples|] eqn:Ev; [|done].
  rewrite bind_Ok. unfold write_file. cbn [files read_file].
  change (String.eqb "test_out_final.wav" "model_best") with false.
  change (String.eqb "testloss_final.txt" "model_best") with false.
  cbv iota.
  destruct (read_file "model_best" (files w)) as [[| | |best info]|] eqn:Eb;
    try done.
  cbn [network allocs training_info files scalars ticks val_output].
  destruct (only_proc _ _ _ (load_model best) _) as [[[o2 l2] n2]|] eqn:E2;
    [|done].
  rewrite !bind_Ok.
  destruct (col00 o2) as [samples'|] eqn:Ec; [|done].
  rewrite bind_Ok. intros [= <-].
  exists o1, l1, n1, val_out, samples, best, info, o2, l2, samples'.
  cbn [network files training_info scalars app].
  split_and!; try done.
Qed.

(** *** The main block *)

(** The last round of the epoch loop leaves the network and the record
    in the checkpoint [model]. *)
Lemma epoch_rounds_checkpoint (start_time init_time : Q) (es : list Z)
    (e : Z) (w w' : world) :
  for_each (es ++ [e]) (epoch_body start_time init_time) w = Ok w' →
  read_file "model" (files w')
  = Some (Model (network w') (training_info w'))
  ∧ current_epoch (training_info w') = e.
Proof.
  rewrite for_each_app.
  destruct (for_each es _ w) as [w0|]; [|done].
  rewrite bind_Ok. cbn [for_each].
  destruct (epoch_body start_time init_time e w0) as [w1|] eqn:E1; [|done].
  rewrite bind_Ok. intros [= <-].
  apply epoch_body_inv in E1
    as (tl & w2 & w3 & _ & _ & _ & (_ & Hf & _ & _ & _ & _ & _ & _ & He)).
  split; [|done]. rewrite Hf. reflexivity.
Qed.

(** What the final test evaluation needs and keeps. *)
Lemma final_test_keeps (w w' : world) :
  final_test w = Ok w' →
  val_output w ≠ None
  ∧ training_info w' = training_info w
  ∧ read_file "model" (files w') = read_file "model" (files w).
Proof.
  unfold final_test, call_only_proc.
  destruct (only_proc _ _ _ (network w) _) as [[[o1 l1] n1]|]; [|done].
  rewrite !bind_Ok. cbn [val_output write_file].
  destruct (val_output w) as [val_out|]; [|done].
  destruct (col00 val_out) as [samples|]; [|done].
  rewrite bind_Ok. unfold write_file. cbn [files read_file].
  change (String.eqb "test_out_final.wav" "model_best") with false.
  change (String.eqb "testloss_final.txt" "model_best") with false.
  cbv iota.
  destruct (read_file "model_best" (files w)) as [[| | |best info]|];
    try done.
  cbn [network allocs training_info files scalars ticks val_output].
  destruct (only_proc _ _ _ (load_model best) _) as [[[o2 l2] n2]|]; [|done].
  rewrite !bind_Ok.
  destruct (col00 o2) as [samples'|]; [|done].
  rewrite bind_Ok. intros [= <-]. by split_and!.
Qed.

(** X14. When the main block completes, the checkpoint [model] of the
    save directory holds the record of the run, which is at epoch
    [args.epochs]; the main block run again on this directory has no
    epoch left: it evaluates the test subset with the network of the
    checkpoint and then stops on the unassigned [val_output]. *)
Theorem main_rerun_stops (fl : list (string * file)) (w' : world) :
  main fl = Ok w' →
  ∃ n,
    read_file "model" (files w') = Some (Model n (training_info w'))
    ∧ current_epoch (training_info w') = Args.epochs args
    ∧ main (files w')
      = (_ ← only_proc (uninit 0) (test_input dataset)
               (test_target dataset) (load_model n) (Args.test_chunk args);
         Raise (NameError "val_output")).
Proof.
  intros Hmain. unfold main in Hmain.
  destruct (main_loop fl) as [w|] eqn:Hloop; [|done].
  rewrite bind_Ok in Hmain.
  apply final_test_keeps in Hmain as (Hvo & Hinfo & Hmodel).
  unfold main_loop in Hloop. destruct (init_model fl) as [n i].
  cbn [time_time] in Hloop. unfold epoch_loop in Hloop.
  cbn [training_info] in Hloop.
  destruct (Z_lt_le_dec (current_epoch i) (Args.epochs args)) as [HE|HE].
  - replace (Args.epochs args + 1)
      with (current_epoch i + 1
            + Z.of_nat (S (Z.to_nat (Args.epochs args - current_epoch i - 1))))
      in Hloop by lia.
    rewrite py_range2_S in Hloop.
    apply epoch_rounds_checkpoint in Hloop as [Hck Hep].
    assert (Hlast : current_epoch (training_info w) = Args.epochs args)
      by lia.
    exists (network w). rewrite Hmodel, Hinfo. split; [done|].
    split; [done|].
    unfold main, main_loop, init_model. rewrite Hmodel, Hck.
    cbn [time_time]. unfold epoch_loop. cbn [training_info].
    rewrite Hlast. unfold py_range2. rewrite Z.sub_diag.
    change (Z.to_nat 0) with 0%nat. cbn [seq map for_each].
    rewrite bind_Ok.
    unfold final_test, call_only_proc. cbn [network allocs].
    destruct (only_proc _ _ _ _ _) as [[[o l] n2]|]; [|done].
    by rewrite !bind_Ok.
  - unfold py_range2 in Hloop.
    replace (Z.to_nat _) with 0%nat in Hloop by lia.
    injection Hloop as <-. done.
Qed.

End Properties.

(** ** Runs on concrete data *)

Example py_slice_ex1 : py_slice [10; 11; 12; 13; 14] 3 (-1) = [13].
Proof. reflexivity. Qed.
Example py_slice_ex2 : py_slice [10; 11; 12; 13; 14] 4 9 = [14].
Proof. reflexivity. Qed.
Example set_slice_ex1 :
  set_slice [0; 0; 0; 0; 0] 2 4 [7; 8] = Ok [0; 0; 7; 8; 0].
Proof. reflexivity. Qed.
Example range_ex : py_range2 3 6 = [3; 4; 5].
Proof. reflexivity. Qed.
Example ceil_ex : (q ← py_truediv 10 4; Ok (math_ceil q)) = Ok 3.
Proof. reflexivity. Qed.

Example only_proc_run_5_2 :
  Runs.only_proc_run 2 5 2 = Ok ([2; 2; 0], 5, Some [-1]).
Proof. reflexivity. Qed.

Example train_epoch_run_10_4 :
  Runs.train_epoch_run 1000 10 1200 4 200 1000
  = Ok ([(200, 4); (1000, 4); (200, 4); (1000, 4); (200, 2); (1000, 2)],
        (-10000 # 3)%Q).
Proof. vm_compute. reflexivity. Qed.

(** C1. On the scenario of the specification, 250000 samples in chunks
    of 100000 (the validation chunk size), the last chunk that
    [only_proc] processes has 49999 samples, not 50000, and the last
    sample of the assembled output, of length 250000, is the
    uninitialised memory of [torch.empty_like]: the remainder slice ends
    at [-1]. *)
Theorem only_proc_scenario_drops_last_sample :
  Runs.only_proc_run 100000 250000 100000
  = Ok ([100000; 100000; 49999], 250000, Some [-1]).
Proof. vm_compute. reflexivity. Qed.

(** The recording network maps a sequence to one of the same length. *)
Lemma recorder_forward_length (a : Args.t) (d : dataset_t Z Z) :
  ∀ (n : net (Env := Recorder.env a d)) (x : list (list Z)),
    length (forward (Env := Recorder.env a d) n x).1 = length x.
Proof. reflexivity. Qed.

(** C9 at 8 samples in chunks of 3, [args.val_chunk] being 3 as well. *)
Lemma only_proc_remainder_write_witness :
  let e := Recorder.env (Runs.mk_args 4 2 50 200 1000 3 3) (Runs.data 1 1 1) in
  let x := Recorder.const 7 1 8 in
  only_proc (env := e) (fun _ => [-1]) x x [] 3
  = Ok ([[7]; [7]; [7]; [7]; [7]; [7]; [7]; [-1]], (-8)%Q,
        [[[7]; [7]; [7]]; [[7]; [7]; [7]]; [[7]]]).
Proof.
  intros e x.
  refine (proj2 (proj1 (proj2 (proj2
    (only_proc_remainder_write (env := e) (recorder_forward_length _ _)
       (fun _ => [-1]) x x [] 3 _ _ _ _))) _)).
  - reflexivity.
  - reflexivity.
  - vm_compute. discriminate.
  - vm_compute. discriminate.
  - reflexivity.
Defined.

(** C9: with [args.val_chunk] of -1 and a chunk of 4, on 10 samples the
    start [2 * -1] of the destination counts from the end and is the
    offset 8 of the remainder: the remainder is in place, as it is
    when [args.val_chunk] is 4. *)
Lemma only_proc_placed_with_unequal_val_chunk :
  let e := Recorder.env (Runs.mk_args 4 2 50 200 1000 (-1) 4)
             (Runs.data 1 1 1) in
  let e' := Recorder.env (Runs.mk_args 4 2 50 200 1000 4 4)
              (Runs.data 1 1 1) in
  let x := [[0]; [1]; [2]; [3]; [4]; [5]; [6]; [7]; [8]; [9]] in
  Args.val_chunk (args (Env := e)) ≠ 4
  ∧ only_proc (env := e) (fun _ => [-1]) x x [] 4
    = Ok ([[0]; [1]; [2]; [3]; [4]; [5]; [6]; [7]; [8]; [-1]], (-10)%Q,
          [[[0]; [1]; [2]; [3]]; [[4]; [5]; [6]; [7]]; [[8]]])
  ∧ only_proc (env := e) (fun _ => [-1]) x x [] 4
    = only_proc (env := e') (fun _ => [-1]) x x [] 4.
Proof.
  intros e e' x. split; [discriminate|]. split; reflexivity.
Qed.

(** C10 at 2 samples and a chunk of 3. *)
Lemma only_proc_short_subset_unbound_witness :
  let e := Recorder.env (Runs.mk_args 4 2 50 200 1000 3 3) (Runs.data 1 1 1) in
  let x := Recorder.const 7 1 2 in
  only_proc (env := e) (fun _ => [-1]) x x [] 3
  = Raise (UnboundLocalError "l").
Proof.
  intros e x.
  apply (only_proc_short_subset_unbound (env := e)).
  - simpl. lia.
  - simpl. lia.
Defined.

(** C4 on the scenario of the specification: priming length 200,
    update interval 1000, batches of 1200 time-steps. *)
Lemma inner_loop_iterations_witness :
  let e := Recorder.env (Runs.mk_args 4 2 4 200 1000 100000 100000)
             (Runs.data 1 1 1) in
  let b := Recorder.const 1 4 1200 in
  n_steps (Z.of_nat (length b)) 200 1000 = 1
  ∧ py_slice b 200 (200 + 1000) = drop (Z.to_nat 200) b
  ∧ Z.of_nat (length (drop (Z.to_nat 200) b)) = Z.of_nat (length b) - 200.
Proof.
  intros e b.
  refine (proj2 (proj2 (proj2
    (inner_loop_iterations (env := e) b b 200 1000 [] None _ _ _))) _ _).
  - vm_compute. reflexivity.
  - lia.
  - reflexivity.
  - lia.
  - vm_compute. discriminate.
Defined.

(** C8: with a parameter [up_fr] of 1000 and [args.up_fr] of 2000, on
    batches of 1200 time-steps primed over 200, the one round of the
    inner loop is aligned, and [train_epoch] returns what it returns when
    [args.up_fr] is 1000 too. *)
Lemma inner_loop_aligned_with_unequal_up_fr :
  let e := Recorder.env (Runs.mk_args 4 2 4 200 2000 100000 100000)
             (Runs.data 1 1 1) in
  let b := Recorder.const 1 4 1200 in
  Forall (aligned (env := e) b b)
    (windows 200 (Args.up_fr (args (Env := e))) 1000
       (Args.up_fr (args (Env := e)))
       (Z.to_nat (n_steps (Z.of_nat (length b)) 200 1000)))
  ∧ 1000 ≠ Args.up_fr (args (Env := e))
  ∧ Runs.train_epoch_run 2000 10 1200 4 200 1000
    = Runs.train_epoch_run 1000 10 1200 4 200 1000.
Proof.
  intros e b. split; [|split].
  - replace (Z.to_nat (n_steps (Z.of_nat (length b)) 200 1000)) with 1%nat
      by (vm_compute; reflexivity).
    repeat constructor.
  - discriminate.
  - vm_compute. reflexivity.
Qed.

(** C8 as amended, at equal intervals of 1000 on batches of 2500
    time-steps primed over 200: three aligned rounds. *)
Lemma inner_loop_alignment_witness :
  let e := Recorder.env (Runs.mk_args 4 2 4 200 1000 100000 100000)
             (Runs.data 1 1 1) in
  let b := Recorder.const 1 4 2500 in
  Forall (aligned (env := e) b b)
    (windows 200 1000 1000 1000
       (Z.to_nat (n_steps (Z.of_nat (length b)) 200 1000)))
  ↔ 1000 = 1000 ∨ Z.of_nat (length b) - 200 ≤ Z.min 1000 1000.
Proof.
  intros e b.
  refine (proj2
    (inner_loop_alignment (env := e) b b 200 1000 [] None _ _ _ _ _)).
  - reflexivity.
  - lia.
  - vm_compute. reflexivity.
  - lia.
  - simpl. lia.
Defined.

(** C2 on 10 segments, segment [j] holding [j], of 12 frames, in
    batches of 4: the batches of the reversed order have sizes 4, 4 and
    2, and the network has seen, for each, the priming slice and the one
    window of the segments of the batch. *)
Lemma train_epoch_mini_batches_witness :
  let e := Recorder.env (Runs.mk_args 4 2 4 2 10 100000 100000)
             (Runs.data 1 1 1) in
  let x := replicate 12 [0; 1; 2; 3; 4; 5; 6; 7; 8; 9] in
  let perm := fun n : nat => rev (seq 0 n) in
  full_chunks (perm 10%nat) 4 3
  = [[9; 8; 7; 6]; [5; 4; 3; 2]; [1; 0]]%nat
  ∧ select_segments x [1; 0]%nat = replicate 12 [1; 0]
  ∧ ∃ v,
      train_epoch (env := e) perm x x [] 4 2 10
      = Ok (v, [replicate 2 [9; 8; 7; 6]; replicate 10 [9; 8; 7; 6];
                replicate 2 [5; 4; 3; 2]; replicate 10 [5; 4; 3; 2];
                replicate 2 [1; 0]; replicate 10 [1; 0]]).
Proof.
  intros e x perm. split; [reflexivity|]. split; [reflexivity|].
  assert (H := train_epoch_mini_batches (env := e) perm x x [] 4 2 10).
  cbv zeta in H.
  specialize (H ltac:(lia) ltac:(lia) ltac:(simpl; lia) ltac:(simpl; lia)).
  specialize (H ltac:(symmetry; apply Permutation_rev)).
  specialize (H ltac:(repeat constructor) ltac:(repeat constructor)).
  destruct H as (_ & _ & _ & _ & _ & _ & _ & Hrun).
  rewrite Hrun. eexists. vm_compute. reflexivity.
Defined.

(** C3 on 10 segments in batches of 4. *)
Lemma train_epoch_mean_of_batch_means_witness :
  let e := Recorder.env (Runs.mk_args 4 2 4 2 10 100000 100000)
             (Runs.data 1 1 1) in
  let x := Recorder.const 1 10 12 in
  let y := Recorder.const 2 10 12 in
  let perm := fun n : nat => rev (seq 0 n) in
  ∃ v st' tr,
    train_epoch (env := e) perm x y [] 4 2 10 = Ok (v, st')
    ∧ length tr = 3%nat
    ∧ v = rdiv (Env := e)
            (rsum (map (fun l => rdiv (rsum l) (Z.of_nat (length l))) tr))
            (Z.of_nat (length tr)).
Proof.
  intros e x y perm.
  destruct (train_epoch (env := e) perm x y [] 4 2 10) as [[v st']|] eqn:Hrun;
    [|vm_compute in Hrun; discriminate].
  destruct (train_epoch_mean_of_batch_means (env := e) perm x y [] st'
              4 2 10 v Hrun) as (tr & _ & Hl & _ & _ & Hv).
  exists v, st', tr. split; [reflexivity|]. split; [exact Hl | exact Hv].
Defined.






Lemma recorder_clock_mono (a b : nat) :
  (a ≤ b)%nat → (inject_Z (Z.of_nat a) <= inject_Z (Z.of_nat b))%Q.
Proof. intros H. rewrite <- Zle_Qle. lia. Qed.



(** C6 on a checkpoint of epoch 1 with one hour of cumulative time, for
    3 epochs. *)
Lemma resume_from_checkpoint_witness :
  let e := Recorder.env (Runs.mk_args 3 2 2 1 2 2 2) (Runs.data 3 5 5) in
  let i0 :=
    {| current_epoch := 1; training_losses := [0%Q];
       validation_losses := []; train_epoch_av := 1; val_epoch_av := 0;
       total_time := 1; best_val_loss := Infinity |} in
  let fl := [("model"%string, Model (env := e) [] i0)] in
  ∃ w',
    main_loop (env := e) fl = Ok w'
    ∧ train_epochs_logged (scalars w') = [2; 3]
    ∧ current_epoch (training_info w') = 3
    ∧ length (training_losses (training_info w')) = 3%nat
    ∧ (1 <= total_time (training_info w'))%Q.
Proof.
  intros e i0 fl.
  destruct (main_loop (env := e) fl) as [w'|] eqn:Hrun;
    [|vm_compute in Hrun; discriminate].
  destruct (resume_from_checkpoint (env := e) recorder_clock_mono fl [] i0 w'
              eq_refl Hrun) as (Hlog & Hlast & Hlen & Htime & _).
  exists w'. split; [reflexivity|]. split; [exact Hlog|].
  split; [apply Hlast; reflexivity|]. split; [exact Hlen | exact Htime].
Defined.

(** C7. A run of the main block on an empty save directory, two epochs
    with a validation after each, validation data holding 2 and test
    data holding 3: the audio file of the final model's test output
    holds the output of the last validation, as the audio file of the
    best validation does, while the audio file of the best checkpoint
    holds its test output. *)
Theorem final_test_audio_is_validation_output :
  let e := Recorder.env (Runs.mk_args 2 1 2 1 2 2 2) (Runs.data 3 5 5) in
  Runs.main_audio e "test_out_final.wav" = Ok (Some [2; 2; 2; 2; -1])
  ∧ Runs.main_audio e "best_val_out.wav" = Ok (Some [2; 2; 2; 2; -1])
  ∧ Runs.main_audio e "test_out_bestv.wav" = Ok (Some [3; 3; 3; 3; -1]).
Proof. vm_compute. repeat split. Qed.

(** Without a validation in the run, the final test evaluation stops
    on the unassigned [val_output]. *)
Example final_test_without_validation :
  main (env := Recorder.env (Runs.mk_args 1 2 2 1 2 2 2) (Runs.data 3 5 5)) []
  = Raise (NameError "val_output").
Proof. vm_compute. reflexivity. Qed.

(** ** The further properties on concrete runs *)

(** X1 at 6 samples in chunks of 3. *)
Lemma only_proc_exact_multiple_witness :
  let e := Recorder.env (Runs.mk_args 4 2 50 200 1000 3 3) (Runs.data 1 1 1) in
  let x := Recorder.const 7 1 6 in
  only_proc (env := e) (fun _ => [-1]) x x [] 3
  = Ok (x, inject_Z 0, [[[7]; [7]; [7]]; [[7]; [7]; [7]]]).
Proof.
  intros e x.
  refine (proj2
    (only_proc_exact_multiple (env := e) (recorder_forward_length _ _)
       (fun _ => [-1]) x x [] 3 _ _ _)).
  - reflexivity.
  - reflexivity.
  - reflexivity.
Defined.

(** X2 at 8 samples in chunks of 3. *)
Lemma only_proc_output_length_witness :
  let e := Recorder.env (Runs.mk_args 4 2 50 200 1000 3 3) (Runs.data 1 1 1) in
  let x := Recorder.const 7 1 8 in
  let out := [[7]; [7]; [7]; [7]; [7]; [7]; [7]; [-1]] in
  let st := [[[7]; [7]; [7]]; [[7]; [7]; [7]]; [[7]]] in
  only_proc (env := e) (fun _ => [-1]) x x [] 3 = Ok (out, (-8)%Q, st)
  ∧ length out = length x.
Proof.
  intros e x out st.
  assert (Hrun : only_proc (env := e) (fun _ => [-1]) x x [] 3
                 = Ok (out, (-8)%Q, st)) by reflexivity.
  split; [exact Hrun|].
  exact (only_proc_output_length (env := e) (fun _ => [-1]) x x out [] st 3
           (-8)%Q Hrun).
Defined.

(** X3 at 8 samples in chunks of 5, [args.val_chunk] being 4. *)
Lemma only_proc_other_val_chunk_raises_witness :
  let e := Recorder.env (Runs.mk_args 4 2 50 200 1000 4 5) (Runs.data 1 1 1) in
  let x := Recorder.const 7 1 8 in
  only_proc (env := e) (fun _ => [-1]) x x [] 5 = Raise ShapeError.
Proof.
  intros e x.
  refine (only_proc_other_val_chunk_raises (env := e)
            (recorder_forward_length _ _) (fun _ => [-1]) x x [] 5
            _ _ _ _ _ _).
  - reflexivity.
  - reflexivity.
  - vm_compute. discriminate.
  - vm_compute. discriminate.
  - vm_compute. discriminate.
  - vm_compute. discriminate.
Defined.

(** X4 at 8 samples and a chunk of -3. *)
Lemma only_proc_negative_chunk_witness :
  let e := Recorder.env (Runs.mk_args 4 2 50 200 1000 3 3) (Runs.data 1 1 1) in
  let x := Recorder.const 7 1 8 in
  only_proc (env := e) (fun _ => [-1]) x x [] (-3)
  = Raise (UnboundLocalError "l").
Proof.
  intros e x.
  refine (only_proc_negative_chunk (env := e) (fun _ => [-1]) x x [] (-3)
            _ _).
  - reflexivity.
  - simpl. lia.
Defined.

(** X5 at 3 segments of 2 frames and a priming length of 5. *)
Lemma train_epoch_short_sequences_unbound_witness :
  let e := Recorder.env (Runs.mk_args 4 2 2 5 2 3 3) (Runs.data 3 2 1) in
  let x := replicate 2 [0; 1; 2] in
  inner_loop (env := e) (replicate 2 [2; 1]) (replicate 2 [2; 1]) 5 2
    ([[[2; 1]; [2; 1]]], 5, 0%Q, None)
  = Ok ([[[2; 1]; [2; 1]]], 5, 0%Q, None)
  ∧ train_epoch (env := e) (fun n => rev (seq 0 n)) x x [] 2 5 2
    = Raise (UnboundLocalError "k").
Proof.
  intros e x.
  assert (H := train_epoch_short_sequences_unbound (env := e)
                 (fun n => rev (seq 0 n)) x x [] 2 5 2).
  cbv zeta in H.
  specialize (H ltac:(lia) ltac:(lia) ltac:(vm_compute; discriminate)
                ltac:(simpl; lia)).
  specialize (H ltac:(symmetry; apply Permutation_rev)).
  specialize (H ltac:(repeat constructor) ltac:(repeat constructor)).
  destruct H as (_ & _ & Hinner & Hraise).
  split; [|exact Hraise].
  exact (Hinner [[[2; 1]; [2; 1]]] 0%Q None).
Defined.

(** X6 at a batch size of -2. *)
Lemma train_epoch_without_batches_witness :
  let e := Recorder.env (Runs.mk_args 4 2 (-2) 1 2 3 3) (Runs.data 3 5 1) in
  let x := Recorder.const 1 3 5 in
  train_epoch (env := e) (fun n => rev (seq 0 n)) x x [] (-2) 1 2
  = Raise (UnboundLocalError "batch_i").
Proof.
  intros e x.
  refine (train_epoch_without_batches (env := e)
            (fun n => rev (seq 0 n)) x x [] (-2) 1 2 _).
  left. reflexivity.
Defined.

(** X7 at a batch of 5 frames, a priming length of 1 and an update
    interval of 2. *)
Lemma inner_loop_covers_batch_witness :
  let e := Recorder.env (Runs.mk_args 4 2 2 1 2 3 3) (Runs.data 2 5 1) in
  let ib := Recorder.const 1 2 5 in
  py_slice ib 0 1 ++ concat [py_slice ib 1 3; py_slice ib 3 5] = ib.
Proof.
  intros e ib.
  refine (proj2 (proj2
    (inner_loop_covers_batch (env := e) ib ib 1 2 [] None _ _ _))).
  - vm_compute. discriminate.
  - reflexivity.
  - reflexivity.
Defined.

(** X8 on an empty save directory, two epochs. *)
Lemma main_zero_validation_f_witness :
  let e := Recorder.env (Runs.mk_args 2 0 2 1 2 2 2) (Runs.data 3 5 5) in
  main (env := e) [] = Raise ZeroDivisionError.
Proof.
  intros e.
  refine (main_zero_validation_f (env := e) [] _ _).
  - reflexivity.
  - reflexivity.
Defined.

(** X9 and X10 on a new model, 3 epochs with a validation every
    second. *)
Lemma epoch_loop_metrics_witness :
  let e := Recorder.env (Runs.mk_args 3 2 2 1 2 2 2) (Runs.data 3 5 5) in
  let w :=
    {| network := new_model (Env := e); training_info := fresh_info;
       files := []; scalars := []; ticks := 0; allocs := 0;
       val_output := None |} in
  ∃ w' new,
    epoch_loop (env := e) 0 0 w = Ok w'
    ∧ scalars w' = new
    ∧ training_losses (training_info w')
      = map fst (logged (env := e) "Loss/train" new)
    ∧ validation_losses (training_info w')
      = map fst (logged (env := e) "Loss/val" new)
    ∧ map snd (logged (env := e) "Loss/train" new) = [1; 2; 3]
    ∧ map snd (logged (env := e) "Loss/val" new) = [2]
    ∧ length new = 4%nat.
Proof.
  intros e w.
  destruct (epoch_loop (env := e) 0 0 w) as [w'|] eqn:Hrun;
    [|vm_compute in Hrun; discriminate].
  destruct (epoch_loop_metrics (env := e) 0 0 w w' Hrun)
    as (new & Hs & Ht & Hv & Hte & Hve & Hlen).
  exists w', new. split; [reflexivity|]. split; [exact Hs|].
  split; [exact Ht|]. split; [exact Hv|]. split; [exact Hte|].
  split; [exact Hve | exact Hlen].
Defined.

Lemma epoch_loop_validation_count_witness :
  let e := Recorder.env (Runs.mk_args 3 2 2 1 2 2 2) (Runs.data 3 5 5) in
  let w :=
    {| network := new_model (Env := e); training_info := fresh_info;
       files := []; scalars := []; ticks := 0; allocs := 0;
       val_output := None |} in
  ∃ w',
    epoch_loop (env := e) 0 0 w = Ok w'
    ∧ length (validation_losses (training_info w')) = 1%nat.
Proof.
  intros e w.
  destruct (epoch_loop (env := e) 0 0 w) as [w'|] eqn:Hrun;
    [|vm_compute in Hrun; discriminate].
  exists w'. split; [reflexivity|].
  refine (epoch_loop_validation_count (env := e) 0 0 w w' _ _ Hrun).
  - reflexivity.
  - vm_compute. discriminate.
Defined.

(** X11 on an empty save directory, one epoch and a validation every
    second. *)
Lemma main_without_validation_witness :
  let e := Recorder.env (Runs.mk_args 1 2 2 1 2 2 2) (Runs.data 3 5 5) in
  ∃ w,
    main_loop (env := e) [] = Ok w
    ∧ main (env := e) []
      = (_ ← only_proc (env := e) (uninit 0) (test_input dataset)
               (test_target dataset) (network w) (Args.test_chunk args);
         Raise (NameError "val_output")).
Proof.
  intros e.
  destruct (main_loop (env := e) []) as [w|] eqn:Hrun;
    [|vm_compute in Hrun; discriminate].
  exists w. split; [reflexivity|].
  refine (main_without_validation (env := e) [] w _ Hrun).
  intros z Hz. simpl in Hz. assert (z = 1) as -> by lia.
  vm_compute. discriminate.
Defined.

(** X12 on a new model, two epochs with a validation after each. *)
Lemma epoch_loop_best_files_witness :
  let e := Recorder.env (Runs.mk_args 2 1 2 1 2 2 2) (Runs.data 3 5 5) in
  let w :=
    {| network := new_model (Env := e); training_info := fresh_info;
       files := []; scalars := []; ticks := 0; allocs := 0;
       val_output := None |} in
  ∃ w' m n j,
    epoch_loop (env := e) 0 0 w = Ok w'
    ∧ best_files_agree (env := e) w'
    ∧ best_val_loss (training_info w') = Finite m
    ∧ read_file "bestvloss.txt" (files w') = Some (LossText m)
    ∧ read_file "model_best" (files w') = Some (Model n j)
    ∧ best_val_loss j = Finite m.
Proof.
  intros e w.
  destruct (epoch_loop (env := e) 0 0 w) as [w'|] eqn:Hrun;
    [|vm_compute in Hrun; discriminate].
  destruct (epoch_loop_best_files (env := e) 0 0 w w' I eq_refl Hrun)
    as [Hagree Hbest].
  destruct Hbest as (m & n & j & Hm & Hl & Hf & Hj).
  - vm_compute in Hrun. injection Hrun as <-. discriminate.
  - intros v _. reflexivity.
  - exists w', m, n, j. split; [reflexivity|]. split; [exact Hagree|].
    split; [exact Hm|]. split; [exact Hl|]. split; [exact Hf | exact Hj].
Defined.

(** X13 after a validation whose output is one sample, the best
    checkpoint being a new model. *)
Lemma final_test_files_witness :
  let e := Recorder.env (Runs.mk_args 2 1 2 1 2 2 2) (Runs.data 3 5 5) in
  let w :=
    {| network := new_model (Env := e); training_info := fresh_info;
       files := [("model_best"%string, Model (env := e) [] fresh_info)];
       scalars := []; ticks := 0; allocs := 0;
       val_output := Some [[2]] |} in
  ∃ w',
    final_test (env := e) w = Ok w'
    ∧ length (files w') = 6%nat
    ∧ training_info w' = training_info w
    ∧ scalars w' = scalars w.
Proof.
  intros e w.
  destruct (final_test (env := e) w) as [w'|] eqn:Hrun;
    [|vm_compute in Hrun; discriminate].
  destruct (final_test_files (env := e) w w' Hrun)
    as (o1 & l1 & n1 & vo & s1 & best & info & o2 & l2 & s2
        & _ & _ & _ & _ & _ & _ & Hf & Hi & Hs & _).
  exists w'. split; [reflexivity|]. split; [by rewrite Hf|].
  split; [exact Hi | exact Hs].
Defined.

(** X14 on an empty save directory, two epochs with a validation after
    each. *)
Lemma main_rerun_stops_witness :
  let e := Recorder.env (Runs.mk_args 2 1 2 1 2 2 2) (Runs.data 3 5 5) in
  ∃ w' n,
    main (env := e) [] = Ok w'
    ∧ read_file "model" (files w') = Some (Model n (training_info w'))
    ∧ current_epoch (training_info w') = 2
    ∧ main (env := e) (files w')
      = (_ ← only_proc (env := e) (uninit 0) (test_input dataset)
               (test_target dataset) (load_model n) (Args.test_chunk args);
         Raise (NameError "val_output")).
Proof.
  intros e.
  destruct (main (env := e) []) as [w'|] eqn:Hrun;
    [|vm_compute in Hrun; discriminate].
  destruct (main_rerun_stops (env := e) [] w' Hrun) as (n & Hm & He & Hr).
  exists w', n. split; [reflexivity|]. split; [exact Hm|].
  split; [exact He | exact Hr].
Defined.
